(** * tabbable: focusable and tabbable elements, in tab order

    A shallow embedding of [src/index.js] and the properties of its
    classifier, collectors and sorter.

    The program reads a live DOM and never writes to it.  The DOM is the
    capability surface of the host environment; it is modelled by the class
    [DOM] below: nodes are identifiers, and every property or method the
    source reads from a node is a function of the class.  What the DOM
    standard derives from the tree ([parentElement], [getRootNode],
    [contains], selector matching, [querySelectorAll]) is derived here from
    the same primitives.

    The environment is a browser: [Element] is defined, with [matches] and
    [getRootNode].  A content attribute and the property that reflects it
    are one thing: [node.inert] is the [inert] attribute of an element,
    [node.name] the [name] attribute, and [disabled] on a fieldset the
    [disabled] attribute.  Tag names are the upper-case names that HTML
    reports, and a type selector matches them whatever its case.

    Loops and recursions of the source that climb or descend the tree are
    written with fuel.  The walks over one chain of nodes take their fuel
    from the depth of the node they start from, which the laws of the class
    make sufficient; the iterative collector takes its fuel as an argument
    and returns [None] when it would need more.

    [console.error] does not change what a function returns: the one
    function that calls it returns its value together with what it wrote,
    and its callers use the value. *)

From Stdlib Require Import List String Ascii ZArith Bool Arith Lia.
From Stdlib Require Import Permutation Sorted.
Import ListNotations.

Local Open Scope string_scope.
Local Open Scope Z_scope.
Local Open Scope list_scope.

Set Implicit Arguments.

(* ================================================================== *)
(** * JavaScript values used by the source *)
(* ================================================================== *)

(** A DOM node is an object reference; two references are [===] exactly
    when they are the same identifier. *)
Definition Node := nat.
Bind Scope nat_scope with Node.

Definition same_node (a b : Node) : bool := Nat.eqb a b.

(** [a === b] on values that may be [null]/[undefined]. *)
Definition same_ref (a b : option Node) : bool :=
  match a, b with
  | Some x, Some y => same_node x y
  | None, None => true
  | _, _ => false
  end.

Definition truthy {A : Type} (o : option A) : bool :=
  match o with Some _ => true | None => false end.

(** The result of a call that may throw. *)
Inductive Outcome (A : Type) : Type :=
| Return (a : A)
| Throw (message : string).
Arguments Return {A} a.
Arguments Throw {A} message.

(** ** Strings *)

Definition upcase_ascii (c : ascii) : ascii :=
  let n := nat_of_ascii c in
  if (andb (Nat.leb 97 n) (Nat.leb n 122)) then ascii_of_nat (n - 32) else c.

Fixpoint toUpperCase (s : string) : string :=
  match s with
  | EmptyString => EmptyString
  | String c rest => String (upcase_ascii c) (toUpperCase rest)
  end.

(** ** [parseInt(string, 10)]

    ECMAScript [parseInt] with radix 10: leading white space is skipped, an
    optional sign is read, then the longest prefix of decimal digits; with
    no digit the result is [NaN], here [None].  Strings are byte strings,
    so only the ASCII white space characters are skipped. *)

Definition isWhiteSpace (c : ascii) : bool :=
  let n := nat_of_ascii c in
  orb (Nat.eqb n 32) (andb (Nat.leb 9 n) (Nat.leb n 13)).

Definition digitValue (c : ascii) : option Z :=
  let n := nat_of_ascii c in
  if andb (Nat.leb 48 n) (Nat.leb n 57) then Some (Z.of_nat (n - 48)) else None.

Fixpoint skipWhiteSpace (s : string) : string :=
  match s with
  | String c rest => if isWhiteSpace c then skipWhiteSpace rest else s
  | EmptyString => EmptyString
  end.

(** [readDigits acc s]: the value of the longest digit prefix of [s],
    continuing the number [acc] read so far. *)
Fixpoint readDigits (acc : Z) (s : string) : Z :=
  match s with
  | String c rest =>
      match digitValue c with
      | Some d => readDigits (10 * acc + d) rest
      | None => acc
      end
  | EmptyString => acc
  end.

Definition startsWithDigit (s : string) : bool :=
  match s with
  | String c _ => truthy (digitValue c)
  | EmptyString => false
  end.

Definition parseInt10 (input : string) : option Z :=
  let s := skipWhiteSpace input in
  let '(sign, s) :=
    match s with
    | String "-" rest => (-1, rest)
    | String "+" rest => (1, rest)
    | _ => (1, s)
    end in
  if startsWithDigit s then Some (sign * readDigits 0 s) else None.

(** [ToString] of the value returned by [getAttribute]: [null] prints as
    ["null"]. *)
Definition attrToString (v : option string) : string :=
  match v with Some s => s | None => "null" end.

Definition parseInt (v : option string) : option Z := parseInt10 (attrToString v).

Definition isNaN (v : option Z) : bool :=
  match v with Some _ => false | None => true end.

(* ================================================================== *)
(** * The DOM capability surface *)
(* ================================================================== *)

(** What [querySelectorAll] does with a selector string built from text the
    library does not control: it returns nodes, or throws a [SyntaxError]
    carrying a message. *)
Inductive QueryResult : Type :=
| Nodes (l : list Node)
| SyntaxError (message : string).

(** [getShadowRoot(element)]: a shadow root, [true] for an undisclosed
    shadow, or a falsy value. *)
Inductive ShadowRootResult : Type :=
| SR_root (r : Node)
| SR_true
| SR_falsy.

(** The fragment of CSS selectors that the source writes.  A selector
    string with commas is a list of these. *)
Inductive Selector : Type :=
| Universal                              (* [*] *)
| Tag (t : string)                       (* [input] *)
| Attr (a : string)                      (* [[href]] *)
| AttrEq (a v : string)                  (* [[type="radio"]] *)
| FirstOfType                            (* [:first-of-type] *)
| Not (s : Selector)                     (* [:not(s)] *)
| And (s1 s2 : Selector)                 (* the compound [s1s2] *)
| Child (p s : Selector)                 (* [p>s] *)
| Descendant (a s : Selector).           (* [a s] *)

Infix ":&" := And (at level 40, left associativity).

(** [options.getShadowRoot]: falsy, [true], or a function. *)
Inductive GetShadowRoot : Type :=
| GSR_falsy
| GSR_true
| GSR_function (f : Node -> ShadowRootResult).

(** The options object of the four public queries. *)
Record Options : Type := {
  includeContainer : bool;
  displayCheck : option string;
  getShadowRoot : GetShadowRoot
}.

(** [options || {}] for an absent options argument. *)
Definition noOptions : Options :=
  {| includeContainer := false; displayCheck := None; getShadowRoot := GSR_falsy |}.

(** [Element | CandidateScope]: what the iterative collector returns. *)
#[warnings="-register-all"]
Inductive Candidate : Type :=
| Element (element : Node)
| CandidateScope (scopeParent : Node) (candidates : list Candidate).

(** The options of the iterative collector. *)
Record IterativeOptions : Type := {
  iter_getShadowRoot : GetShadowRoot;
  iter_filter : Node -> bool;
  iter_flatten : bool;
  iter_shadowRootFilter : option (Node -> bool)
}.

(** The records that [sortByOrder] sorts.  [content] is the element itself
    or, for a scope, the sorted elements of the scope; it is kept as a list
    in both cases, with one element in the first. *)
Module Sortable.
Record t : Type := {
  documentOrder : Z;
  tabIndex : Z;
  item : Candidate;
  isScope : bool;
  content : list Node
}.
End Sortable.

(** [array.sort(compare)].  The comparators of the source order their
    arguments totally, so every sorting algorithm returns the same array;
    this one inserts each element before the first one it does not
    exceed, which is stable. *)
Section ArraySort.
Variable A : Type.
Variable compare : A -> A -> Z.

Fixpoint insertSorted (x : A) (l : list A) : list A :=
  match l with
  | [] => [x]
  | y :: l' => if compare x y <=? 0 then x :: y :: l' else y :: insertSorted x l'
  end.

Definition arraySort (l : list A) : list A := fold_right insertSorted [] l.
End ArraySort.

Class DOM : Type := {
  (** tree structure *)
  isElement : Node -> bool;               (* an Element, not a Document or ShadowRoot *)
  tagName : Node -> string;               (* upper case, as HTML reports it *)
  parentNode : Node -> option Node;
  children : Node -> list Node;           (* element children, in document order *)
  ownerDocument : Node -> option Node;
  shadowRoot : Node -> option Node;       (* [element.shadowRoot]: open shadow roots only *)
  host : Node -> option Node;             (* [shadowRoot.host] *)
  assignedSlot : Node -> option Node;
  assignedElements : Node -> list Node;
  form : Node -> option Node;             (* form owner *)
  (** content attributes and element state *)
  getAttribute : Node -> string -> option string;
  disabled : Node -> bool;
  checked : Node -> bool;
  type_ : Node -> string;                 (* [input.type], normalised by the browser *)
  tabIndex : Node -> Z;
  isContentEditable : Node -> bool;
  (** style and geometry *)
  visibility : Node -> string;            (* [getComputedStyle(node).visibility] *)
  boundingWidth : Node -> Z;              (* [getBoundingClientRect()]; only compared with 0 *)
  boundingHeight : Node -> Z;
  clientRects : Node -> nat;              (* [getClientRects().length] *)
  (** the window *)
  CSS_escape : bool;                      (* [window.CSS.escape] is a function *)
  queryRadiosRaw : Node -> string -> QueryResult;
      (* [scope.querySelectorAll('input[type="radio"][name="' + name + '"]')]
         with the name interpolated as it is, used when there is no
         [CSS.escape] *)
  (** the tree is finite and acyclic: a node lies deeper than its parent,
      its assigned slot and, for a shadow root, its host; and it is higher
      than its children *)
  depth : Node -> nat;
  height : Node -> nat;
  depth_parentNode : forall n p, parentNode n = Some p -> (depth p < depth n)%nat;
  depth_assignedSlot : forall n s, assignedSlot n = Some s -> (depth s < depth n)%nat;
  depth_host : forall n h, host n = Some h -> (depth h < depth n)%nat;
  height_children : forall n c, In c (children n) -> (height c < height n)%nat;
  (** documents and shadow roots are tree roots *)
  root_parentNode : forall n, isElement n = false -> parentNode n = None;
  (** on a fieldset, [disabled] reflects the content attribute *)
  fieldset_disabled : forall n, tagName n = "FIELDSET" ->
      disabled n = truthy (getAttribute n "disabled")
}.

Section Tabbable.

Context {dom : DOM}.

Definition hasAttribute (n : Node) (a : string) : bool := truthy (getAttribute n a).

(** [node.inert] reflects the [inert] content attribute of an element;
    documents and shadow roots have no such property, it reads as
    [undefined]. *)
Definition inert (n : Node) : bool := isElement n && hasAttribute n "inert".

(** [node.name] reflects the [name] content attribute. *)
Definition name (n : Node) : string :=
  match getAttribute n "name" with Some s => s | None => "" end.

Definition parentElement (n : Node) : option Node :=
  match parentNode n with
  | Some p => if isElement p then Some p else None
  | None => None
  end.

(** The chain [n.parentNode, n.parentNode.parentNode, ...]. *)
Fixpoint parentNodes (fuel : nat) (n : Node) : list Node :=
  match fuel with
  | O => []
  | S fuel' =>
      match parentNode n with
      | Some p => p :: parentNodes fuel' p
      | None => []
      end
  end.

Definition ancestors (n : Node) : list Node := parentNodes (depth n) n.

(** The chain [n.parentElement, n.parentElement.parentElement, ...]. *)
Fixpoint parentElements (fuel : nat) (n : Node) : list Node :=
  match fuel with
  | O => []
  | S fuel' =>
      match parentElement n with
      | Some p => p :: parentElements fuel' p
      | None => []
      end
  end.

Definition elementAncestors (n : Node) : list Node := parentElements (depth n) n.

(** [a.contains(b)]: [b] is [a] or a descendant of [a]. *)
Definition contains (a b : Node) : bool :=
  same_node a b || existsb (same_node a) (ancestors b).

(** [element.getRootNode()]: the topmost node of the parent chain. *)
Definition getRootNode (n : Node) : Node := last (ancestors n) n.

(** Descendant elements in document order (pre-order). *)
Fixpoint descendantsFrom (fuel : nat) (n : Node) : list Node :=
  match fuel with
  | O => []
  | S fuel' => flat_map (fun c => c :: descendantsFrom fuel' c) (children n)
  end.

Definition descendants (n : Node) : list Node := descendantsFrom (height n) n.

(* ================================================================== *)
(** * Selectors *)
(* ================================================================== *)

(** [:first-of-type]: no earlier sibling has the same element type. *)
Definition isFirstOfType (n : Node) : bool :=
  match parentNode n with
  | None => true
  | Some p =>
      match find (fun c => tagName c =? tagName n)%string (children p) with
      | Some c => same_node c n
      | None => false
      end
  end.

Fixpoint matchesSelector (s : Selector) (n : Node) {struct s} : bool :=
  match s with
  | Universal => true
  | Tag t => (tagName n =? toUpperCase t)%string
  | Attr a => hasAttribute n a
  | AttrEq a v =>
      match getAttribute n a with
      | Some w => (w =? v)%string
      | None => false
      end
  | FirstOfType => isFirstOfType n
  | Not s' => negb (matchesSelector s' n)
  | And s1 s2 => matchesSelector s1 n && matchesSelector s2 n
  | Child p s' =>
      matchesSelector s' n &&
      match parentElement n with
      | Some q => matchesSelector p q
      | None => false
      end
  | Descendant a s' =>
      matchesSelector s' n &&
      existsb (matchesSelector a) (elementAncestors n)
  end.

(** [matches.call(node, selectors)] *)
Definition matches (n : Node) (selectors : list Selector) : bool :=
  existsb (fun s => matchesSelector s n) selectors.

(** [scope.querySelectorAll(selectors)] *)
Definition querySelectorAll (scope : Node) (selectors : list Selector) : list Node :=
  filter (fun n => matches n selectors) (descendants scope).

Definition candidateSelectors : list Selector := [
  Tag "input" :& Not (Attr "inert") :& Not (Descendant (Attr "inert") Universal);
  Tag "select" :& Not (Attr "inert") :& Not (Descendant (Attr "inert") Universal);
  Tag "textarea" :& Not (Attr "inert") :& Not (Descendant (Attr "inert") Universal);
  Tag "a" :& Attr "href" :& Not (Attr "inert") :& Not (Descendant (Attr "inert") Universal);
  Tag "button" :& Not (Attr "inert") :& Not (Descendant (Attr "inert") Universal);
  Attr "tabindex" :& Not (Tag "slot") :& Not (Attr "inert")
    :& Not (Descendant (Attr "inert") Universal);
  Tag "audio" :& Attr "controls" :& Not (Attr "inert")
    :& Not (Descendant (Attr "inert") Universal);
  Tag "video" :& Attr "controls" :& Not (Attr "inert")
    :& Not (Descendant (Attr "inert") Universal);
  Attr "contenteditable" :& Not (AttrEq "contenteditable" "false") :& Not (Attr "inert")
    :& Not (Descendant (Attr "inert") Universal);
  Child (Tag "details")
        (Tag "summary" :& FirstOfType :& Not (Attr "inert")
           :& Not (Descendant (Attr "inert") Universal));
  Tag "details" :& Not (Attr "inert") :& Not (Descendant (Attr "inert") Universal)
].

(** [candidateSelectors.join(',')] *)
Definition candidateSelector : list Selector := candidateSelectors.

(** [candidateSelectors] with the iframe selector appended, joined *)
Definition focusableCandidateSelector : list Selector :=
  candidateSelectors ++ [Tag "iframe" :& Not (Descendant (Attr "inert") Universal)].

(* ================================================================== *)
(** * Inertness and the flat collector *)
(* ================================================================== *)

Fixpoint isInert_rec (fuel : nat) (node : option Node) (lookUp : bool) : bool :=
  match node with
  | None => false
  | Some n =>
      inert n ||
      (lookUp &&
       match fuel with
       | O => false
       | S fuel' => isInert_rec fuel' (parentNode n) true
       end)
  end.

(** [isInert(node, lookUp = true)] *)
Definition isInert (node : option Node) (lookUp : bool) : bool :=
  isInert_rec (match node with Some n => depth n | None => O end) node lookUp.

Definition includes (l : list Node) (n : Node) : bool := existsb (same_node n) l.

(** [getCandidates(el, includeContainer, filter)] *)
Definition getCandidates (el : Node) (includeContainer : bool)
    (filter_ : Node -> bool) : list Node :=
  if isInert (Some el) true then []
  else
    let candidates := querySelectorAll el candidateSelector in
    let candidates :=
      if includeContainer && matches el candidateSelector
      then el :: candidates else candidates in
    filter filter_ candidates.

(* ================================================================== *)
(** * The iterative collector *)
(* ================================================================== *)

Definition isSlot (n : Node) : bool := (tagName n =? "SLOT")%string.

(** [element.shadowRoot || (typeof getShadowRoot === 'function' &&
    getShadowRoot(element))] *)
Definition shadowRootOf (options : IterativeOptions) (element : Node) : ShadowRootResult :=
  match shadowRoot element with
  | Some r => SR_root r
  | None =>
      match iter_getShadowRoot options with
      | GSR_function f => f element
      | _ => SR_falsy
      end
  end.

(** The node a [getShadowRoot] result denotes; [true] and the falsy values
    have no properties. *)
Definition shadowRootNode (r : ShadowRootResult) : option Node :=
  match r with SR_root x => Some x | _ => None end.

Definition shadowRootTruthy (r : ShadowRootResult) : bool :=
  match r with SR_falsy => false | _ => true end.

(** [getCandidatesIteratively(elements, includeContainer, options)], as the
    loop over [elementsToCheck].  Every turn of the loop and every nested
    call takes one unit of [fuel]; [None] is a run that needs more. *)
Fixpoint getCandidatesIteratively_loop (fuel : nat) (elements : list Node)
    (includeContainer : bool) (options : IterativeOptions)
    (elementsToCheck : list Node) : option (list Candidate) :=
  match fuel with
  | O => None
  | S fuel' =>
    match elementsToCheck with
    | [] => Some []
    | element :: rest =>
      if isInert (Some element) false then
        getCandidatesIteratively_loop fuel' elements includeContainer options rest
      else if isSlot element then
        let assigned := assignedElements element in
        let content := match assigned with [] => children element | _ => assigned end in
        match getCandidatesIteratively_loop fuel' content true options content with
        | None => None
        | Some nestedCandidates =>
          match getCandidatesIteratively_loop fuel' elements includeContainer options rest with
          | None => None
          | Some later =>
            Some ((if iter_flatten options then nestedCandidates
                   else [CandidateScope element nestedCandidates]) ++ later)
          end
        end
      else
        let validCandidate := matches element candidateSelector in
        let own :=
          if validCandidate && iter_filter options element &&
             (includeContainer || negb (includes elements element))
          then [Element element] else [] in
        let shadowRoot := shadowRootOf options element in
        let validShadowRoot :=
          negb (isInert (shadowRootNode shadowRoot) false) &&
          match iter_shadowRootFilter options with
          | None => true
          | Some shadowRootFilter => shadowRootFilter element
          end in
        if shadowRootTruthy shadowRoot && validShadowRoot then
          let content :=
            match shadowRoot with
            | SR_root r => children r
            | _ => children element
            end in
          match getCandidatesIteratively_loop fuel' content true options content with
          | None => None
          | Some nestedCandidates =>
            match getCandidatesIteratively_loop fuel' elements includeContainer options rest with
            | None => None
            | Some later =>
              Some (own ++
                    (if iter_flatten options then nestedCandidates
                     else [CandidateScope element nestedCandidates]) ++ later)
            end
          end
        else
          match getCandidatesIteratively_loop fuel' elements includeContainer options
                  (children element ++ rest) with
          | None => None
          | Some later => Some (own ++ later)
          end
    end
  end.

Definition getCandidatesIteratively (fuel : nat) (elements : list Node)
    (includeContainer : bool) (options : IterativeOptions) : option (list Candidate) :=
  getCandidatesIteratively_loop fuel elements includeContainer options elements.

(* ================================================================== *)
(** * Node predicates *)
(* ================================================================== *)

Definition isAudioVideoDetails (tag : string) : bool :=
  ((tag =? "AUDIO") || (tag =? "VIDEO") || (tag =? "DETAILS"))%string.

(** [getTabindex(node, isScope)] *)
Definition getTabindex (node : Node) (isScope : bool) : Z :=
  if tabIndex node <? 0 then
    if (isScope || isAudioVideoDetails (tagName node) || isContentEditable node) &&
       isNaN (parseInt (getAttribute node "tabindex"))
    then 0
    else tabIndex node
  else tabIndex node.

Definition sortOrderedTabbables (a b : Sortable.t) : Z :=
  if Sortable.tabIndex a =? Sortable.tabIndex b
  then Sortable.documentOrder a - Sortable.documentOrder b
  else Sortable.tabIndex a - Sortable.tabIndex b.

Definition isInput (node : Node) : bool := (tagName node =? "INPUT")%string.

Definition isHiddenInput (node : Node) : bool :=
  isInput node && (type_ node =? "hidden")%string.

Definition isDetailsWithSummary (node : Node) : bool :=
  (tagName node =? "DETAILS")%string &&
  existsb (fun child => (tagName child =? "SUMMARY")%string) (children node).

(** [getCheckedRadio(nodes, form)]: [None] is [undefined]. *)
Definition getCheckedRadio (nodes : list Node) (form_ : option Node) : option Node :=
  find (fun n => checked n && same_ref (form n) form_) nodes.

(** A returned value together with what the call wrote with
    [console.error]. *)
Record Logged (A : Type) : Type := { value : A; console : list string }.

Definition consoleErrorText : string :=
  "Looks like you have a radio button with a name attribute containing invalid CSS selector characters and need the CSS.escape polyfill: ".

(** The selector that [queryRadios] builds from an escaped name. *)
Definition radioSelector (name_ : string) : list Selector :=
  [Tag "input" :& AttrEq "type" "radio" :& AttrEq "name" name_].

(** [node.form || getRootNode(node)] *)
Definition radioScope (node : Node) : Node :=
  match form node with Some f => f | None => getRootNode node end.

(** [isTabbableRadio(node)] *)
Definition isTabbableRadio (node : Node) : Logged bool :=
  if (name node =? "")%string then {| value := true; console := [] |}
  else
    let radioSet :=
      if CSS_escape
      then Nodes (querySelectorAll (radioScope node) (radioSelector (name node)))
      else queryRadiosRaw (radioScope node) (name node) in
    match radioSet with
    | SyntaxError message =>
        {| value := false; console := [(consoleErrorText ++ message)%string] |}
    | Nodes radioSet =>
        let checked_ := getCheckedRadio radioSet (form node) in
        {| value := match checked_ with
                    | None => true
                    | Some c => same_node c node
                    end;
           console := [] |}
    end.

Definition isRadio (node : Node) : bool :=
  isInput node && (type_ node =? "radio")%string.

Definition isNonTabbableRadio (node : Node) : bool :=
  isRadio node && negb (value (isTabbableRadio node)).

(** [n.ownerDocument?.contains(n)] for a node that may be absent. *)
Definition inOwnerDocument (n : option Node) : bool :=
  match n with
  | Some x =>
      match ownerDocument x with
      | Some d => contains d x
      | None => false
      end
  | None => false
  end.

Fixpoint isNodeAttached_loop (fuel : nat) (attached : bool)
    (nodeRootHost : option Node) : bool :=
  match nodeRootHost with
  | Some h =>
      if attached then attached
      else
        match fuel with
        | O => attached
        | S fuel' =>
            let nodeRoot := getRootNode h in
            let nodeRootHost' := host nodeRoot in
            isNodeAttached_loop fuel' (inOwnerDocument nodeRootHost') nodeRootHost'
        end
  | None => attached
  end.

(** [isNodeAttached(node)] *)
Definition isNodeAttached (node : Node) : bool :=
  let nodeRoot := getRootNode node in
  let nodeRootHost := host nodeRoot in
  if negb (same_node nodeRoot node) then
    isNodeAttached_loop (depth node)
      (inOwnerDocument nodeRootHost || inOwnerDocument (Some node)) nodeRootHost
  else false.

Definition isZeroArea (node : Node) : bool :=
  (boundingWidth node =? 0) && (boundingHeight node =? 0).

(** The first two tests of [isHidden], made under every [displayCheck]. *)
Definition isDirectSummary (node : Node) : bool :=
  matches node [Child (Tag "details") (Tag "summary" :& FirstOfType)].

Definition nodeUnderDetails (node : Node) : Node :=
  if isDirectSummary node
  then match parentElement node with Some p => p | None => node end
  else node.

Definition underClosedDetails (node : Node) : bool :=
  matches (nodeUnderDetails node)
          [Descendant (Tag "details" :& Not (Attr "open")) Universal].

(** The upward walk of [isHidden] that looks for an undisclosed shadow:
    [Some n] when the walk stops at [n], whose parent has one. *)
Fixpoint undisclosedShadowWalk (fuel : nat) (getShadowRoot_ : Node -> ShadowRootResult)
    (node : option Node) : option Node :=
  match node with
  | None => None
  | Some n =>
      let parentElement_ := parentElement n in
      let rootNode := getRootNode n in
      if match parentElement_ with
         | Some p =>
             negb (truthy (shadowRoot p)) &&
             match getShadowRoot_ p with SR_true => true | _ => false end
         | None => false
         end
      then Some n
      else
        match fuel with
        | O => None
        | S fuel' =>
            match assignedSlot n with
            | Some slot => undisclosedShadowWalk fuel' getShadowRoot_ (Some slot)
            | None =>
                if negb (truthy parentElement_) &&
                   negb (same_ref (Some rootNode) (ownerDocument n))
                then undisclosedShadowWalk fuel' getShadowRoot_ (host rootNode)
                else undisclosedShadowWalk fuel' getShadowRoot_ parentElement_
            end
        end
  end.

Definition falsyString (s : option string) : bool :=
  match s with None => true | Some s' => (s' =? "")%string end.

Definition stringIs (s : option string) (v : string) : bool :=
  match s with Some s' => (s' =? v)%string | None => false end.

(** The walk is made when [getShadowRoot] is a function. *)
Definition undisclosedShadow (node : Node) (options : Options) : option Node :=
  match getShadowRoot options with
  | GSR_function f => undisclosedShadowWalk (depth node) f (Some node)
  | _ => None
  end.

(** [isHidden(node, { displayCheck, getShadowRoot })] *)
Definition isHidden (node : Node) (options : Options) : bool :=
  if (visibility node =? "hidden")%string then true
  else if underClosedDetails node then true
  else if falsyString (displayCheck options) ||
          stringIs (displayCheck options) "full" ||
          stringIs (displayCheck options) "legacy-full" then
    match undisclosedShadow node options with
    | Some n => isZeroArea n
    | None =>
        if isNodeAttached node then Nat.eqb (clientRects node) 0
        else if negb (stringIs (displayCheck options) "legacy-full") then true
        else false
    end
  else if stringIs (displayCheck options) "non-zero-area" then isZeroArea node
  else false.

Definition isFormControl (node : Node) : bool :=
  ((tagName node =? "INPUT") || (tagName node =? "BUTTON") ||
   (tagName node =? "SELECT") || (tagName node =? "TEXTAREA"))%string.

Definition isDisabledFieldset (n : Node) : bool :=
  (tagName n =? "FIELDSET")%string && disabled n.

(** What [isDisabledFromFieldset] returns once it has found the disabled
    fieldset [parentNode] above [node]. *)
Definition legendDecision (node parentNode_ : Node) : bool :=
  match find (fun child => (tagName child =? "LEGEND")%string) (children parentNode_) with
  | Some child =>
      if matches parentNode_ [Descendant (Tag "fieldset" :& Attr "disabled") Universal]
      then true
      else negb (contains child node)
  | None => true
  end.

Fixpoint isDisabledFromFieldset_loop (fuel : nat) (node : Node)
    (parentNode_ : option Node) : bool :=
  match parentNode_ with
  | None => false
  | Some p =>
      if isDisabledFieldset p then legendDecision node p
      else
        match fuel with
        | O => false
        | S fuel' => isDisabledFromFieldset_loop fuel' node (parentElement p)
        end
  end.

(** [isDisabledFromFieldset(node)] *)
Definition isDisabledFromFieldset (node : Node) : bool :=
  if isFormControl node
  then isDisabledFromFieldset_loop (depth node) node (parentElement node)
  else false.

(* ================================================================== *)
(** * The classifier *)
(* ================================================================== *)

Definition isNodeMatchingSelectorFocusable (options : Options) (node : Node) : bool :=
  if disabled node ||
     isInert (Some node) false ||
     isHiddenInput node ||
     isHidden node options ||
     isDetailsWithSummary node ||
     isDisabledFromFieldset node
  then false
  else true.

Definition isNodeMatchingSelectorTabbable (options : Options) (node : Node) : bool :=
  if isNonTabbableRadio node ||
     (getTabindex node false <? 0) ||
     negb (isNodeMatchingSelectorFocusable options node)
  then false
  else true.

Definition isValidShadowRootTabbable (shadowHostNode : Node) : bool :=
  let tabIndex_ := parseInt (getAttribute shadowHostNode "tabindex") in
  match tabIndex_ with
  | None => true
  | Some t => if t >=? 0 then true else false
  end.

(* ================================================================== *)
(** * The sorter and the public queries *)
(* ================================================================== *)

(** The body of [candidates.forEach(function (item, i) ...)] in
    [sortByOrder], from index [i] on: the regular and the ordered
    tabbables.  [elementsOf item] is [sortByOrder(item.candidates)] for a
    scope and the element itself otherwise. *)
Fixpoint partitionTabbables (elementsOf : Candidate -> list Node) (i : nat)
    (candidates : list Candidate) : list Node * list Sortable.t :=
  match candidates with
  | [] => ([], [])
  | item :: rest =>
      let isScope := match item with CandidateScope _ _ => true | Element _ => false end in
      let element := match item with CandidateScope p _ => p | Element e => e end in
      let candidateTabindex := getTabindex element isScope in
      let elements := elementsOf item in
      let '(regularTabbables, orderedTabbables) :=
        partitionTabbables elementsOf (S i) rest in
      if candidateTabindex =? 0
      then (elements ++ regularTabbables, orderedTabbables)
      else (regularTabbables,
            {| Sortable.documentOrder := Z.of_nat i;
               Sortable.tabIndex := candidateTabindex;
               Sortable.item := item;
               Sortable.isScope := isScope;
               Sortable.content := elements |} :: orderedTabbables)
  end.

Definition sortWith (elementsOf : Candidate -> list Node)
    (candidates : list Candidate) : list Node :=
  let '(regularTabbables, orderedTabbables) :=
    partitionTabbables elementsOf O candidates in
  fold_left (fun acc sortable => acc ++ Sortable.content sortable)
            (arraySort sortOrderedTabbables orderedTabbables) []
  ++ regularTabbables.

Fixpoint elementsOf (item : Candidate) : list Node :=
  match item with
  | Element e => [e]
  | CandidateScope _ inner => sortWith elementsOf inner
  end.

(** [sortByOrder(candidates)] *)
Definition sortByOrder (candidates : list Candidate) : list Node :=
  sortWith elementsOf candidates.

Definition tabbableOptions (options : Options) : IterativeOptions :=
  {| iter_filter := isNodeMatchingSelectorTabbable options;
     iter_flatten := false;
     iter_getShadowRoot := getShadowRoot options;
     iter_shadowRootFilter := Some isValidShadowRootTabbable |}.

Definition focusableOptions (options : Options) : IterativeOptions :=
  {| iter_filter := isNodeMatchingSelectorFocusable options;
     iter_flatten := true;
     iter_getShadowRoot := getShadowRoot options;
     iter_shadowRootFilter := None |}.

Definition getShadowRootTruthy (g : GetShadowRoot) : bool :=
  match g with GSR_falsy => false | _ => true end.

(** [tabbable(el, options)] *)
Definition tabbable (fuel : nat) (el : Node) (options : Options) : option (list Node) :=
  let candidates :=
    if getShadowRootTruthy (getShadowRoot options) then
      getCandidatesIteratively fuel [el] (includeContainer options)
        (tabbableOptions options)
    else
      Some (map Element
              (getCandidates el (includeContainer options)
                 (isNodeMatchingSelectorTabbable options))) in
  option_map sortByOrder candidates.

(** The elements of a candidate list without scopes, which is what the
    collector returns under [flatten]. *)
Fixpoint flatElements (candidates : list Candidate) : list Node :=
  match candidates with
  | [] => []
  | Element e :: rest => e :: flatElements rest
  | CandidateScope _ _ :: rest => flatElements rest
  end.

(** [focusable(el, options)] *)
Definition focusable (fuel : nat) (el : Node) (options : Options) : option (list Node) :=
  if getShadowRootTruthy (getShadowRoot options) then
    option_map flatElements
      (getCandidatesIteratively fuel [el] (includeContainer options)
         (focusableOptions options))
  else
    Some (getCandidates el (includeContainer options)
            (isNodeMatchingSelectorFocusable options)).

(** [isTabbable(node, options)]; [None] is an absent node. *)
Definition isTabbable (node : option Node) (options : Options) : Outcome bool :=
  match node with
  | None => Throw "No node provided"
  | Some n =>
      if negb (matches n candidateSelector) then Return false
      else Return (isNodeMatchingSelectorTabbable options n)
  end.

(** [isFocusable(node, options)] *)
Definition isFocusable (node : option Node) (options : Options) : Outcome bool :=
  match node with
  | None => Throw "No node provided"
  | Some n =>
      if negb (matches n focusableCandidateSelector) then Return false
      else Return (isNodeMatchingSelectorFocusable options n)
  end.

(* ================================================================== *)
(** * The vocabulary of the properties *)
(* ================================================================== *)

(** What the collector has checked of every element it returns. *)
Definition Accepted (options : IterativeOptions) (x : Node) : Prop :=
  matches x candidateSelector = true /\
  iter_filter options x = true /\
  isSlot x = false.

(** Under [flatten] the collector returns elements only, so that
    [flatElements] forgets nothing. *)
Definition NoScope (l : list Candidate) : Prop :=
  Forall (fun c => exists e, c = Element e) l.

(** The collector descends from an element into its children, into the
    elements assigned to a slot, and into the children of a shadow root.  In
    a DOM these steps go down a finite tree; [rank] measures it.  The
    shadow roots come in part from the caller's [getShadowRoot], which is
    why the measure is a hypothesis and not a law of the class. *)
Definition Ranked (options : IterativeOptions) (rank : Node -> nat) : Prop :=
  (forall n c, In c (children n) -> (rank c < rank n)%nat) /\
  (forall n c, In c (assignedElements n) -> (rank c < rank n)%nat) /\
  (forall n r c, shadowRootOf options n = SR_root r -> In c (children r) ->
                 (rank c < rank n)%nat).

(** The loop returns on [elementsToCheck], given enough fuel. *)
Definition Terminates (options : IterativeOptions) (elementsToCheck : list Node) : Prop :=
  forall elements includeContainer_,
  exists fuel l,
    getCandidatesIteratively_loop fuel elements includeContainer_ options elementsToCheck
      = Some l.

(** The tab index under which [sortByOrder] files an item. *)
Definition candidateTabindex (item : Candidate) : Z :=
  match item with
  | Element e => getTabindex e false
  | CandidateScope p _ => getTabindex p true
  end.

(** The items of a list with their positions, from position [i] on. *)
Definition positioned (i : nat) (candidates : list Candidate) : list (nat * Candidate) :=
  combine (seq i (List.length candidates)) candidates.

Definition sortableOf (elems : Candidate -> list Node) (ic : nat * Candidate) : Sortable.t :=
  {| Sortable.documentOrder := Z.of_nat (fst ic);
     Sortable.tabIndex := candidateTabindex (snd ic);
     Sortable.item := snd ic;
     Sortable.isScope := match snd ic with CandidateScope _ _ => true | Element _ => false end;
     Sortable.content := elems (snd ic) |}.

(** The order of [sortOrderedTabbables] on positioned items: by tab index,
    then by position. *)
Definition orderedBefore (a b : nat * Candidate) : Prop :=
  candidateTabindex (snd a) < candidateTabindex (snd b) \/
  (candidateTabindex (snd a) = candidateTabindex (snd b) /\ (fst a < fst b)%nat).

Definition comparePositioned (elems : Candidate -> list Node) (a b : nat * Candidate) : Z :=
  sortOrderedTabbables (sortableOf elems a) (sortableOf elems b).

(** The order that the specification describes for a candidate list:
    [ordered] holds the items of positive tab index, by tab index and then
    position; the items of tab index 0 follow in their order; a scope
    stands for its own elements, sorted the same way. *)
Definition TabOrder (candidates : list Candidate) (result : list Node) : Prop :=
  exists ordered : list (nat * Candidate),
    Permutation ordered
      (filter (fun ic => 0 <? candidateTabindex (snd ic)) (positioned 0 candidates)) /\
    StronglySorted orderedBefore ordered /\
    result =
      flat_map (fun ic => elementsOf (snd ic)) ordered ++
      flat_map elementsOf (filter (fun c => candidateTabindex c =? 0) candidates).

(** The full focusability predicate of the specification. *)
Definition Focusability (options : Options) (x : Node) : Prop :=
  disabled x = false /\
  isInert (Some x) true = false /\
  isHiddenInput x = false /\
  isHidden x options = false /\
  isDetailsWithSummary x = false /\
  isDisabledFromFieldset x = false.

Definition Tabbability (options : Options) (x : Node) : Prop :=
  Focusability options x /\
  isNonTabbableRadio x = false /\
  0 <= getTabindex x false.

(** The radios that [queryRadios] selects for an escaped name. *)
Definition sameNameRadios (node : Node) : list Node :=
  querySelectorAll (radioScope node) (radioSelector (name node)).

(** The group of a radio: the radios of the same name below its form
    owner, or below its root when it has none, that have the same form
    owner. *)
Definition radioGroup (node : Node) : list Node :=
  filter (fun r => same_ref (form r) (form node)) (sameNameRadios node).

(** The group lookup selects the same-name radios: [CSS.escape] is there,
    or the selector built from the name as it is selects them. *)
Definition SelectorBuilt (node : Node) : Prop :=
  CSS_escape = true \/
  queryRadiosRaw (radioScope node) (name node) = Nodes (sameNameRadios node).

(** [node] is a descendant of the first legend child of [fieldset_]. *)
Definition inFirstLegend (node fieldset_ : Node) : bool :=
  match find (fun child => (tagName child =? "LEGEND")%string) (children fieldset_) with
  | Some legend => contains legend node
  | None => false
  end.

Definition nestedInDisabledFieldset (fieldset_ : Node) : bool :=
  existsb isDisabledFieldset (elementAncestors fieldset_).

(** The legend exemption of [node] from the disabled [fieldset_]. *)
Definition legendExempt (node fieldset_ : Node) : bool :=
  inFirstLegend node fieldset_ && negb (nestedInDisabledFieldset fieldset_).

(** The two tests that [isHidden] makes before it looks at
    [displayCheck]. *)
Definition hiddenRegardless (node : Node) : bool :=
  (visibility node =? "hidden")%string || underClosedDetails node.

(** When [getTabindex] replaces a tab index by 0. *)
Definition normalisesTabindex (node : Node) (isScope : bool) : bool :=
  (tabIndex node <? 0) &&
  (isScope || isAudioVideoDetails (tagName node) || isContentEditable node) &&
  isNaN (parseInt (getAttribute node "tabindex")).

(** Every item of a candidate list, at every depth of scope, is filed under
    the tab index 0. *)
Fixpoint allTabindexZero (item : Candidate) : bool :=
  match item with
  | Element e => getTabindex e false =? 0
  | CandidateScope p inner => (getTabindex p true =? 0) && forallb allTabindexZero inner
  end.

(** What [isNodeMatchingSelectorTabbable] asks of a node besides
    [isNodeMatchingSelectorFocusable]. *)
Definition tabbableAmongFocusable (x : Node) : bool :=
  negb (isNonTabbableRadio x) && (0 <=? getTabindex x false).

(** A details element without the [open] attribute. *)
Definition isClosedDetails (n : Node) : bool :=
  (tagName n =? "DETAILS")%string && negb (hasAttribute n "open").

(** The nodes that the flat collector looks at: the descendants of the
    container, and the container itself on request. *)
Definition inContainer (el : Node) (includeContainer_ : bool) (x : Node) : Prop :=
  In x (descendants el) \/ (includeContainer_ = true /\ x = el).

(** The shadow hosts above a node: the host of its root, the host of the
    root of that host, and so on, which is the chain that the loop of
    [isNodeAttached] climbs. *)
Fixpoint hostsFrom (fuel : nat) (n : Node) : list Node :=
  match fuel with
  | O => []
  | S fuel' =>
      match host (getRootNode n) with
      | Some h => h :: hostsFrom fuel' h
      | None => []
      end
  end.

Definition shadowHosts (n : Node) : list Node := hostsFrom (depth n) n.

(** The values of [displayCheck] under which [isHidden] looks at the
    rendering of the node: unset, ['full'] and ['legacy-full']. *)
Definition checksRendering (options : Options) : bool :=
  falsyString (displayCheck options) ||
  stringIs (displayCheck options) "full" ||
  stringIs (displayCheck options) "legacy-full".

(** The parent of every scope of an item, at every depth, passes [test]. *)
Fixpoint scopesSatisfy (test : Node -> bool) (item : Candidate) : bool :=
  match item with
  | Element _ => true
  | CandidateScope p inner => test p && forallb (scopesSatisfy test) inner
  end.

(** The elements that the loop of the collector visits from [n] down when
    it meets neither a slot nor a shadow root: [n] and its descendants in
    document order, less the subtrees of inert elements. *)
Fixpoint visitedFrom (fuel : nat) (n : Node) : list Node :=
  match fuel with
  | O => []
  | S fuel' =>
      if inert n then []
      else n :: flat_map (visitedFrom fuel') (children n)
  end.

Definition visited (n : Node) : list Node := visitedFrom (S (height n)) n.

(** A page without shadow DOM, in which the child lists and the parent
    links agree. *)
Definition LightDom : Prop :=
  (forall n, shadowRoot n = None) /\
  (forall n, isSlot n = false) /\
  (forall n c, In c (children n) -> parentNode c = Some n).

End Tabbable.

(** The elements of a candidate list, at every depth of scope. *)
Fixpoint leaves (item : Candidate) : list Node :=
  match item with
  | Element e => [e]
  | CandidateScope _ inner => flat_map leaves inner
  end.

(** Induction on candidates: a scope holds a list of candidates. *)
Fixpoint Candidate_induction (P : Candidate -> Prop)
    (HE : forall e, P (Element e))
    (HS : forall p inner, Forall P inner -> P (CandidateScope p inner))
    (item : Candidate) : P item :=
  match item with
  | Element e => HE e
  | CandidateScope p inner =>
      HS p inner
         ((fix all (l : list Candidate) : Forall P l :=
             match l with
             | [] => Forall_nil P
             | x :: l' => Forall_cons x (Candidate_induction HE HS x) (all l')
             end) inner)
  end.

(* ================================================================== *)
(** * Documents written as tables *)
(* ================================================================== *)

(** A concrete DOM: row [n] of a table lists what is known of node [n];
    row 0 is the document, and rows are in document order, so that a parent,
    an assigned slot and a shadow host come before the nodes that refer to
    them.  What a row does not say takes the default of a rendered
    element: visible, one client rect, a box of 10 by 10, tab index -1. *)
Inductive Fact : Type :=
| IsDocument
| IsShadowRoot (host_ : Node)
| TagName (t : string)
| Parent (p : Node)
| Attribute (a v : string)
| Disabled
| Checked
| InputType (t : string)
| TabIndex (z : Z)
| ContentEditable
| ShadowRoot (r : Node)
| AssignedSlot (s : Node)
| FormOwner (f : Node)
| Visibility (v : string)
| Box (w h : Z)
| ClientRects (k : nat).

Module Table.
Section Table.

Variable table : list (list Fact).
Variable cssEscape : bool.
Variable rawQuery : Node -> string -> QueryResult.

Definition facts (n : Node) : list Fact := nth n table [].

Definition firstOf {A : Type} (pick : Fact -> option A) (n : Node) : option A :=
  fold_right (fun f later => match pick f with Some a => Some a | None => later end)
             None (facts n).

Definition has (test : Fact -> bool) (n : Node) : bool := existsb test (facts n).

Definition nodes : list Node := seq 0 (List.length table).

Definition isElement (n : Node) : bool :=
  negb (has (fun f => match f with IsDocument | IsShadowRoot _ => true | _ => false end) n).

Definition earlier (n : Node) (o : option Node) : option Node :=
  match o with
  | Some p => if Nat.ltb p n then Some p else None
  | None => None
  end.

Definition tagName (n : Node) : string :=
  match firstOf (fun f => match f with TagName t => Some t | _ => None end) n with
  | Some t => t
  | None => ""
  end.

Definition parentNode (n : Node) : option Node :=
  if isElement n
  then earlier n (firstOf (fun f => match f with Parent p => Some p | _ => None end) n)
  else None.

Definition children (n : Node) : list Node :=
  filter (fun c => isElement c && same_ref (parentNode c) (Some n)) nodes.

Definition ownerDocument (n : Node) : option Node :=
  if has (fun f => match f with IsDocument => true | _ => false end) n
  then None else Some O.

Definition shadowRoot (n : Node) : option Node :=
  firstOf (fun f => match f with ShadowRoot r => Some r | _ => None end) n.

Definition host (n : Node) : option Node :=
  earlier n (firstOf (fun f => match f with IsShadowRoot h => Some h | _ => None end) n).

Definition assignedSlot (n : Node) : option Node :=
  earlier n (firstOf (fun f => match f with AssignedSlot s => Some s | _ => None end) n).

Definition assignedElements (n : Node) : list Node :=
  filter (fun c => same_ref (assignedSlot c) (Some n)) nodes.

Definition form (n : Node) : option Node :=
  firstOf (fun f => match f with FormOwner x => Some x | _ => None end) n.

Definition getAttribute (n : Node) (a : string) : option string :=
  firstOf (fun f => match f with
                    | Attribute b v => if (a =? b)%string then Some v else None
                    | _ => None
                    end) n.

Definition disabled (n : Node) : bool :=
  if (tagName n =? "FIELDSET")%string then truthy (getAttribute n "disabled")
  else has (fun f => match f with Disabled => true | _ => false end) n.

Definition checked (n : Node) : bool :=
  has (fun f => match f with Checked => true | _ => false end) n.

Definition type_ (n : Node) : string :=
  match firstOf (fun f => match f with InputType t => Some t | _ => None end) n with
  | Some t => t
  | None => ""
  end.

Definition tabIndex (n : Node) : Z :=
  match firstOf (fun f => match f with TabIndex z => Some z | _ => None end) n with
  | Some z => z
  | None => -1
  end.

Definition isContentEditable (n : Node) : bool :=
  has (fun f => match f with ContentEditable => true | _ => false end) n.

Definition visibility (n : Node) : string :=
  match firstOf (fun f => match f with Visibility v => Some v | _ => None end) n with
  | Some v => v
  | None => "visible"
  end.

Definition box (n : Node) : Z * Z :=
  match firstOf (fun f => match f with Box w h => Some (w, h) | _ => None end) n with
  | Some b => b
  | None => (10, 10)
  end.

Definition clientRects (n : Node) : nat :=
  match firstOf (fun f => match f with ClientRects k => Some k | _ => None end) n with
  | Some k => k
  | None => 1%nat
  end.

Definition depth (n : Node) : nat := n.

Definition height (n : Node) : nat := (List.length table - n)%nat.

(** The table as a [DOM].  The fields come in the order in which the
    class declares them; the laws hold because a row refers to earlier rows
    only. *)
Definition dom : DOM.
Proof.
  assert (earlier_lt : forall n o p, earlier n o = Some p -> (p < n)%nat).
  { intros n [q|] p; simpl; [|discriminate].
    destruct (Nat.ltb q n) eqn:E; [|discriminate].
    intros [= <-]. now apply Nat.ltb_lt. }
  assert (parent_lt : forall n p, parentNode n = Some p -> (depth p < depth n)%nat).
  { intros n p. unfold parentNode. destruct (isElement n); [|discriminate].
    apply earlier_lt. }
  refine (Build_DOM isElement tagName parentNode children ownerDocument shadowRoot host
            assignedSlot assignedElements form getAttribute disabled checked type_ tabIndex
            isContentEditable visibility (fun n => fst (box n)) (fun n => snd (box n))
            clientRects cssEscape rawQuery depth height parent_lt _ _ _ _ _).
  - intros n s. apply earlier_lt.
  - intros n h. apply earlier_lt.
  - intros n c. unfold children, height, nodes. rewrite filter_In, in_seq.
    intros [[_ Hc] H]. apply andb_prop in H as [_ H].
    destruct (parentNode c) as [p|] eqn:E; simpl in H; [|discriminate].
    apply Nat.eqb_eq in H. subst p. apply parent_lt in E. unfold depth in E.
    simpl in Hc. lia.
  - intros n. unfold parentNode. now intros ->.
  - intros n. unfold disabled. now intros ->.
Defined.

End Table.
End Table.

(** ** The documents used below *)

Definition noRawQuery (scope : Node) (name_ : string) : QueryResult := Nodes [].

(** [<div> <input type=radio name=r> <input type=radio name=r checked>
    <input type=radio name=r> </div>]: the div is node 1, the radios are
    nodes 2, 3 and 4. *)
Definition radiosTable : list (list Fact) := [
  [IsDocument];
  [TagName "DIV"; Parent 0];
  [TagName "INPUT"; Parent 1; Attribute "type" "radio"; InputType "radio";
   Attribute "name" "r"; TabIndex 0];
  [TagName "INPUT"; Parent 1; Attribute "type" "radio"; InputType "radio";
   Attribute "name" "r"; TabIndex 0; Checked];
  [TagName "INPUT"; Parent 1; Attribute "type" "radio"; InputType "radio";
   Attribute "name" "r"; TabIndex 0]
].

Definition radiosDom : DOM := Table.dom radiosTable true noRawQuery.

(** [<div> <x-host> #shadow-root( <button tabindex=1> <slot tabindex=-1> )
    <button> </x-host> </div>]: the div is node 1, the host node 2, its
    shadow root node 3, the button and the slot of the shadow tree nodes 4
    and 5, and the button of the light tree, assigned to the slot,
    node 6. *)
Definition shadowTable : list (list Fact) := [
  [IsDocument];
  [TagName "DIV"; Parent 0];
  [TagName "X-HOST"; Parent 1; ShadowRoot 3];
  [IsShadowRoot 2];
  [TagName "BUTTON"; Parent 3; Attribute "tabindex" "1"; TabIndex 1];
  [TagName "SLOT"; Parent 3; Attribute "tabindex" "-1"; TabIndex (-1)];
  [TagName "BUTTON"; Parent 2; AssignedSlot 5; TabIndex 0]
].

Definition shadowDom : DOM := Table.dom shadowTable true noRawQuery.

(** The candidates that [tabbable] collects below the host of
    [shadowDom]: the button of tab index 1 and the scope of the slot. *)
Definition slotCandidates : list Candidate := [Element 4; CandidateScope 5 [Element 6]].

Definition withShadow : Options :=
  {| includeContainer := false; displayCheck := None; getShadowRoot := GSR_true |}.

(** The options with shadow support switched off. *)
Definition withoutShadow (options : Options) : Options :=
  {| includeContainer := includeContainer options;
     displayCheck := displayCheck options;
     getShadowRoot := GSR_falsy |}.

(** A [getShadowRoot] function for a page that has no shadow root. *)
Definition noShadowRoot (element : Node) : ShadowRootResult := SR_falsy.

(** A [getShadowRoot] function that reports an undisclosed shadow on every
    element. *)
Definition undisclosedShadowRoot (element : Node) : ShadowRootResult := SR_true.

Definition withGetShadowRoot (f : Node -> ShadowRootResult) : Options :=
  {| includeContainer := false; displayCheck := None; getShadowRoot := GSR_function f |}.

(** [<div inert tabindex="0"> <div> <button> </div> </div> <button>]: the
    inert div is node 1, the inner div node 2, its button node 3, and the
    button outside node 4. *)
Definition inertTable : list (list Fact) := [
  [IsDocument];
  [TagName "DIV"; Parent 0; Attribute "inert" ""; Attribute "tabindex" "0"; TabIndex 0];
  [TagName "DIV"; Parent 1];
  [TagName "BUTTON"; Parent 2; TabIndex 0];
  [TagName "BUTTON"; Parent 0; TabIndex 0]
].

Definition inertDom : DOM := Table.dom inertTable true noRawQuery.

Definition withContainer : Options :=
  {| includeContainer := true; displayCheck := None; getShadowRoot := GSR_falsy |}.

(** [<div> <iframe> </div>]: the div is node 1 and the iframe node 2. *)
Definition iframeTable : list (list Fact) := [
  [IsDocument];
  [TagName "DIV"; Parent 0];
  [TagName "IFRAME"; Parent 1; TabIndex 0]
].

Definition iframeDom : DOM := Table.dom iframeTable true noRawQuery.

(** [<div> <details> <summary> <a href> </details> <button tabindex="2">
    <button> </div>], the details element closed: the div is node 1, the
    details element node 2, its summary node 3, the link node 4, which is
    not rendered, and the buttons nodes 5 and 6. *)
Definition detailsTable : list (list Fact) := [
  [IsDocument];
  [TagName "DIV"; Parent 0];
  [TagName "DETAILS"; Parent 1];
  [TagName "SUMMARY"; Parent 2; TabIndex 0];
  [TagName "A"; Parent 2; Attribute "href" "#"; TabIndex 0; Box 0 0; ClientRects 0];
  [TagName "BUTTON"; Parent 1; Attribute "tabindex" "2"; TabIndex 2];
  [TagName "BUTTON"; Parent 1; TabIndex 0]
].

Definition detailsDom : DOM := Table.dom detailsTable true noRawQuery.

(** A browser without [CSS.escape], and a radio whose name ends in a
    backslash: interpolated as it is, the backslash escapes the closing
    quote of the attribute value, and [querySelectorAll] throws.  The div is
    node 1 and the radio node 2; no radio is checked. *)
Definition unescapableName : string := "a\".

Definition throwingRawQuery (scope : Node) (name_ : string) : QueryResult :=
  if (name_ =? unescapableName)%string
  then SyntaxError "not a valid selector"
  else Nodes [].

Definition unescapableTable : list (list Fact) := [
  [IsDocument];
  [TagName "DIV"; Parent 0];
  [TagName "INPUT"; Parent 1; Attribute "type" "radio"; InputType "radio";
   Attribute "name" unescapableName; TabIndex 0]
].

Definition unescapableDom : DOM := Table.dom unescapableTable false throwingRawQuery.

(** [<div> <fieldset disabled> <legend> <input> </legend> <input>
    <fieldset disabled> <legend> <input> </legend> </fieldset> </fieldset>
    </div>]: the div is node 1, the outer fieldset node 2, its legend node
    3 with the input 4, the input outside the legend node 5, the inner
    fieldset node 6, its legend node 7 with the input 8. *)
Definition fieldsetTable : list (list Fact) := [
  [IsDocument];
  [TagName "DIV"; Parent 0];
  [TagName "FIELDSET"; Parent 1; Attribute "disabled" ""];
  [TagName "LEGEND"; Parent 2];
  [TagName "INPUT"; Parent 3; InputType "text"; TabIndex 0];
  [TagName "INPUT"; Parent 2; InputType "text"; TabIndex 0];
  [TagName "FIELDSET"; Parent 2; Attribute "disabled" ""];
  [TagName "LEGEND"; Parent 6];
  [TagName "INPUT"; Parent 7; InputType "text"; TabIndex 0]
].

Definition fieldsetDom : DOM := Table.dom fieldsetTable true noRawQuery.

(** Buttons that differ in visibility and attachment.  Node 1 is rendered
    with [visibility: hidden]; node 2 is rendered and visible; node 4 lies
    under the closed details 3; node 5 is a button that was never inserted;
    node 7 lies under the closed details 6 of a tree that was never
    inserted.  A node outside the document has no box and no client
    rect. *)
Definition visibilityTable : list (list Fact) := [
  [IsDocument];
  [TagName "BUTTON"; Parent 0; TabIndex 0; Visibility "hidden"];
  [TagName "BUTTON"; Parent 0; TabIndex 0];
  [TagName "DETAILS"; Parent 0];
  [TagName "BUTTON"; Parent 3; TabIndex 0; Box 0 0; ClientRects 0];
  [TagName "BUTTON"; TabIndex 0; Visibility ""; Box 0 0; ClientRects 0];
  [TagName "DETAILS"; Visibility ""; Box 0 0; ClientRects 0];
  [TagName "BUTTON"; Parent 6; TabIndex 0; Visibility ""; Box 0 0; ClientRects 0]
].

Definition visibilityDom : DOM := Table.dom visibilityTable true noRawQuery.

Definition withDisplayCheck (mode : string) : Options :=
  {| includeContainer := false; displayCheck := Some mode; getShadowRoot := GSR_falsy |}.

(** The same with shadow support switched on. *)
Definition withShadowAndDisplayCheck (mode : string) : Options :=
  {| includeContainer := false; displayCheck := Some mode; getShadowRoot := GSR_true |}.

(** [<div contenteditable="true" tabindex="abc">], node 1, and [<audio>]
    without controls, node 2; the browser reports the tab index -1 for
    both. *)
Definition tabindexTable : list (list Fact) := [
  [IsDocument];
  [TagName "DIV"; Parent 0; Attribute "contenteditable" "true"; ContentEditable;
   Attribute "tabindex" "abc"; TabIndex (-1)];
  [TagName "AUDIO"; Parent 0; TabIndex (-1)]
].

Definition tabindexDom : DOM := Table.dom tabindexTable true noRawQuery.

(** [<div> <slot contenteditable="true" tabindex="0"> </div>]: the div is
    node 1 and the slot node 2; a slot has [display: contents], hence no
    box. *)
Definition slotTable : list (list Fact) := [
  [IsDocument];
  [TagName "DIV"; Parent 0];
  [TagName "SLOT"; Parent 1; Attribute "contenteditable" "true"; ContentEditable;
   Attribute "tabindex" "0"; TabIndex 0; Box 0 0; ClientRects 0]
].

Definition slotDom : DOM := Table.dom slotTable true noRawQuery.

(* ================================================================== *)
(** * Properties *)
(* ================================================================== *)

Section Chains.

Context {dom : DOM}.

(** ** Parent chains

    The fuel of the upward walks is the depth of the node they start from;
    by the laws of the class it never runs out: more fuel changes
    nothing. *)

Lemma parentNodes_fuel (f1 : nat) : forall f2 n,
  (depth n <= f1)%nat -> (depth n <= f2)%nat -> parentNodes f1 n = parentNodes f2 n.
Proof.
  induction f1 as [|f1 IH]; intros [|f2] n H1 H2; simpl; try reflexivity;
    destruct (parentNode n) as [p|] eqn:Ep; try reflexivity;
    pose proof (depth_parentNode _ Ep) as Hp; try lia.
  f_equal. apply IH; lia.
Qed.

Lemma parentElement_parentNode (n p : Node) :
  parentElement n = Some p -> parentNode n = Some p /\ isElement p = true.
Proof.
  unfold parentElement. destruct (parentNode n) as [q|]; [|discriminate].
  destruct (isElement q) eqn:E; [|discriminate]. now intros [= <-].
Qed.

Lemma depth_parentElement (n p : Node) :
  parentElement n = Some p -> (depth p < depth n)%nat.
Proof. intros H. apply parentElement_parentNode in H as [H _]. now apply depth_parentNode. Qed.

Lemma parentElements_fuel (f1 : nat) : forall f2 n,
  (depth n <= f1)%nat -> (depth n <= f2)%nat -> parentElements f1 n = parentElements f2 n.
Proof.
  induction f1 as [|f1 IH]; intros [|f2] n H1 H2; simpl; try reflexivity;
    destruct (parentElement n) as [p|] eqn:Ep; try reflexivity;
    pose proof (depth_parentElement _ Ep) as Hp; try lia.
  f_equal. apply IH; lia.
Qed.

(** The chains unfold as the recursion they stand for. *)
Lemma ancestors_unfold (n : Node) :
  ancestors n = match parentNode n with
                | Some p => p :: ancestors p
                | None => []
                end.
Proof.
  unfold ancestors. destruct (parentNode n) as [p|] eqn:Ep.
  - pose proof (depth_parentNode _ Ep) as Hp.
    destruct (depth n) as [|d] eqn:Ed; [lia|]. simpl. rewrite Ep. f_equal.
    apply parentNodes_fuel; lia.
  - destruct (depth n); simpl; now rewrite ?Ep.
Qed.

Lemma elementAncestors_unfold (n : Node) :
  elementAncestors n = match parentElement n with
                       | Some p => p :: elementAncestors p
                       | None => []
                       end.
Proof.
  unfold elementAncestors. destruct (parentElement n) as [p|] eqn:Ep.
  - pose proof (depth_parentElement _ Ep) as Hp.
    destruct (depth n) as [|d] eqn:Ed; [lia|]. simpl. rewrite Ep. f_equal.
    apply parentElements_fuel; lia.
  - destruct (depth n); simpl; now rewrite ?Ep.
Qed.

Lemma elementAncestors_are_elements (n a : Node) :
  In a (elementAncestors n) -> isElement a = true.
Proof.
  unfold elementAncestors. generalize (depth n) as fuel. intros fuel. revert n.
  induction fuel as [|fuel IH]; intros n; simpl; [tauto|].
  destruct (parentElement n) as [p|] eqn:Ep; [|simpl; tauto].
  intros [<-|H]; [now apply parentElement_parentNode in Ep|now apply (IH p)].
Qed.

(** ** [isInert] *)

Lemma isInert_rec_chain (fuel : nat) : forall n,
  isInert_rec fuel (Some n) true = inert n || existsb inert (parentNodes fuel n).
Proof.
  induction fuel as [|fuel IH]; intros n; simpl; [reflexivity|].
  destruct (parentNode n) as [p|]; simpl; [|now destruct fuel].
  now rewrite IH.
Qed.

Lemma isInert_self (n : Node) : isInert (Some n) false = inert n.
Proof. unfold isInert. destruct (depth n); simpl; now rewrite orb_false_r. Qed.

Lemma isInert_lookUp (n : Node) :
  isInert (Some n) true = inert n || existsb inert (ancestors n).
Proof. apply isInert_rec_chain. Qed.

(** [isInert] satisfies the recursive equation of the source. *)
Lemma isInert_unfold (n : Node) (lookUp : bool) :
  isInert (Some n) lookUp = inert n || (lookUp && isInert (parentNode n) true).
Proof.
  destruct lookUp; [|now rewrite isInert_self, orb_false_r].
  rewrite isInert_lookUp, ancestors_unfold. simpl.
  destruct (parentNode n) as [p|]; [|reflexivity].
  simpl. now rewrite isInert_lookUp.
Qed.

(** Element ancestors and the parent chain carry the same inert flags: the
    parent chain ends with at most one more node, a document or a shadow
    root, which has no [inert] property. *)
Lemma inert_chain (fuel : nat) : forall n,
  existsb inert (parentNodes fuel n) =
  existsb (fun a => hasAttribute a "inert") (parentElements fuel n).
Proof.
  induction fuel as [|fuel IH]; intros n; simpl; [reflexivity|].
  unfold parentElement. destruct (parentNode n) as [p|]; [|reflexivity].
  destruct (isElement p) eqn:Ep; simpl.
  - rewrite IH. unfold inert. now rewrite Ep.
  - unfold inert at 1. rewrite Ep. simpl.
    destruct fuel; simpl; [reflexivity|].
    now rewrite (root_parentNode _ Ep).
Qed.

Lemma isInert_attributes (n : Node) :
  hasAttribute n "inert" = false ->
  existsb (fun a => hasAttribute a "inert") (elementAncestors n) = false ->
  isInert (Some n) true = false.
Proof.
  intros H1 H2. rewrite isInert_lookUp. unfold ancestors. rewrite inert_chain.
  unfold elementAncestors in H2. rewrite H2. unfold inert. rewrite H1.
  now rewrite andb_false_r.
Qed.

(** ** The other walks

    The same holds of the remaining walks: the fuel they are given is
    enough, whatever larger amount gives the same result. *)

Lemma last_cons (A : Type) (l : list A) (a d : A) : last (a :: l) d = last l a.
Proof.
  revert a d. induction l as [|b l IH]; intros a d; [reflexivity|].
  change (last (a :: b :: l) d) with (last (b :: l) d). now rewrite !IH.
Qed.

Lemma getRootNode_unfold (n : Node) :
  getRootNode n = match parentNode n with
                  | Some p => getRootNode p
                  | None => n
                  end.
Proof.
  unfold getRootNode. rewrite ancestors_unfold.
  destruct (parentNode n) as [p|]; [apply last_cons|reflexivity].
Qed.

Lemma depth_getRootNode (k : nat) : forall n,
  (depth n < k)%nat -> (depth (getRootNode n) <= depth n)%nat.
Proof.
  induction k as [|k IH]; intros n Hk; [lia|].
  rewrite getRootNode_unfold. destruct (parentNode n) as [p|] eqn:Ep; [|lia].
  pose proof (depth_parentNode _ Ep). specialize (IH p). lia.
Qed.

Lemma depth_rootHost (n h : Node) :
  host (getRootNode n) = Some h -> (depth h < depth n)%nat.
Proof.
  intros H. apply depth_host in H.
  pose proof (@depth_getRootNode (S (depth n)) n). lia.
Qed.

Lemma undisclosedShadowWalk_fuel (getShadowRoot_ : Node -> ShadowRootResult) (f1 : nat) :
  forall f2 n,
  (depth n <= f1)%nat -> (depth n <= f2)%nat ->
  undisclosedShadowWalk f1 getShadowRoot_ (Some n) =
  undisclosedShadowWalk f2 getShadowRoot_ (Some n).
Proof.
  assert (Hnone : forall f, undisclosedShadowWalk f getShadowRoot_ None = None)
    by now intros [|f].
  assert (Hstep : forall n, (forall m, (depth m < depth n)%nat -> False) ->
            assignedSlot n = None /\ parentElement n = None /\
            host (getRootNode n) = None).
  { intros n Hn. repeat split.
    - destruct (assignedSlot n) as [s|] eqn:E; [|reflexivity].
      destruct (Hn s). now apply depth_assignedSlot.
    - destruct (parentElement n) as [q|] eqn:E; [|reflexivity].
      destruct (Hn q). now apply depth_parentElement.
    - destruct (host (getRootNode n)) as [h|] eqn:E; [|reflexivity].
      destruct (Hn h). now apply depth_rootHost. }
  induction f1 as [|f1 IH]; intros [|f2] n H1 H2; cbn [undisclosedShadowWalk];
    try reflexivity.
  - destruct (Hstep n) as (-> & -> & ->); [intros; lia|].
    rewrite !Hnone. now destruct (_ && _).
  - destruct (Hstep n) as (-> & -> & ->); [intros; lia|].
    rewrite !Hnone. now destruct (_ && _).
  - destruct (match parentElement n with Some _ => _ | None => _ end); [reflexivity|].
    destruct (assignedSlot n) as [s|] eqn:Es.
    { pose proof (depth_assignedSlot _ Es). apply IH; lia. }
    destruct (negb (truthy (parentElement n)) && _).
    + destruct (host (getRootNode n)) as [h|] eqn:Eh; [|now rewrite !Hnone].
      pose proof (depth_rootHost _ Eh). apply IH; lia.
    + destruct (parentElement n) as [q|] eqn:Eq; [|now rewrite !Hnone].
      pose proof (depth_parentElement _ Eq). apply IH; lia.
Qed.

Lemma isNodeAttached_loop_fuel (f1 : nat) : forall f2 attached h,
  (depth h <= f1)%nat -> (depth h <= f2)%nat ->
  isNodeAttached_loop f1 attached (Some h) = isNodeAttached_loop f2 attached (Some h).
Proof.
  assert (Hnone : forall f a, isNodeAttached_loop f a None = a) by now intros [|f].
  induction f1 as [|f1 IH]; intros [|f2] attached h H1 H2; cbn [isNodeAttached_loop];
    try reflexivity; destruct attached; try reflexivity;
    destruct (host (getRootNode h)) as [h'|] eqn:Eh;
    rewrite ?Hnone; try reflexivity;
    pose proof (depth_rootHost _ Eh); try lia.
  apply IH; lia.
Qed.

Lemma descendantsFrom_fuel (f1 : nat) : forall f2 n,
  (height n <= f1)%nat -> (height n <= f2)%nat ->
  descendantsFrom f1 n = descendantsFrom f2 n.
Proof.
  induction f1 as [|f1 IH]; intros [|f2] n H1 H2; cbn [descendantsFrom];
    try reflexivity.
  - destruct (children n) as [|c l] eqn:E; [reflexivity|].
    pose proof (height_children n c). rewrite E in H. specialize (H (or_introl eq_refl)). lia.
  - destruct (children n) as [|c l] eqn:E; [reflexivity|].
    pose proof (height_children n c). rewrite E in H. specialize (H (or_introl eq_refl)). lia.
  - pose proof (height_children n) as Hc.
    induction (children n) as [|c l IHl]; [reflexivity|].
    cbn [flat_map]. rewrite IHl by (intros c' Hc'; apply Hc; now right).
    f_equal. f_equal. specialize (Hc c (or_introl eq_refl)). apply IH; lia.
Qed.

Lemma descendants_unfold (n : Node) :
  descendants n = flat_map (fun c => c :: descendants c) (children n).
Proof.
  unfold descendants. pose proof (height_children n) as Hc.
  destruct (height n) as [|h] eqn:Eh.
  - destruct (children n) as [|c l]; [reflexivity|].
    specialize (Hc c (or_introl eq_refl)). lia.
  - cbn [descendantsFrom].
    induction (children n) as [|c l IHl]; [reflexivity|].
    cbn [flat_map]. rewrite IHl by (intros c' Hc'; apply Hc; now right).
    f_equal. f_equal. specialize (Hc c (or_introl eq_refl)).
    apply descendantsFrom_fuel; lia.
Qed.

(** ** Selectors *)

Lemma tag_eqb (n : Node) (t : string) : (tagName n =? t)%string = true -> tagName n = t.
Proof. apply String.eqb_eq. Qed.

(** Every candidate selector ends with the two inert tests. *)
Lemma notInert_clause (s : Selector) (n : Node) :
  matchesSelector (s :& Not (Attr "inert") :& Not (Descendant (Attr "inert") Universal)) n
    = true ->
  hasAttribute n "inert" = false /\
  existsb (fun a => hasAttribute a "inert") (elementAncestors n) = false.
Proof.
  simpl. intros H.
  apply andb_prop in H as [H H2]. apply andb_prop in H as [_ H1].
  apply negb_true_iff in H1, H2. split; [exact H1|exact H2].
Qed.

Lemma candidate_attributes_not_inert (n : Node) :
  matches n candidateSelector = true ->
  hasAttribute n "inert" = false /\
  existsb (fun a => hasAttribute a "inert") (elementAncestors n) = false.
Proof.
  unfold matches. rewrite existsb_exists. intros (s & Hs & Hm).
  unfold candidateSelector, candidateSelectors in Hs. simpl in Hs.
  repeat (destruct Hs as [<-|Hs]; [try (eapply notInert_clause; exact Hm)|]);
    try contradiction.
  change (matchesSelector
            (Tag "summary" :& FirstOfType :& Not (Attr "inert")
               :& Not (Descendant (Attr "inert") Universal)) n &&
          match parentElement n with
          | Some q => matchesSelector (Tag "details") q
          | None => false
          end = true) in Hm.
  apply andb_prop in Hm as [Hm _]. eapply notInert_clause; exact Hm.
Qed.

Lemma candidate_not_inert (n : Node) :
  matches n candidateSelector = true -> isInert (Some n) true = false.
Proof.
  intros H. apply candidate_attributes_not_inert in H as [H1 H2].
  now apply isInert_attributes.
Qed.

Lemma candidate_is_focusableCandidate (n : Node) :
  matches n candidateSelector = true -> matches n focusableCandidateSelector = true.
Proof.
  unfold matches, focusableCandidateSelector, candidateSelector.
  rewrite existsb_app. now intros ->.
Qed.

(** A slot matches the candidate selector through the [contenteditable]
    clause only. *)
Lemma slot_candidate (n : Node) :
  matches n candidateSelector = true -> isSlot n = true ->
  matchesSelector (Attr "contenteditable" :& Not (AttrEq "contenteditable" "false")) n = true.
Proof.
  unfold matches, isSlot. rewrite existsb_exists. intros (s & Hs & Hm) Hslot.
  apply tag_eqb in Hslot.
  unfold candidateSelector, candidateSelectors in Hs. simpl in Hs.
  repeat (destruct Hs as [<-|Hs]); try contradiction;
    simpl in Hm; rewrite ?Hslot in Hm; simpl in Hm;
    try discriminate.
  - destruct (hasAttribute n "tabindex"); simpl in Hm; discriminate.
  - simpl. apply andb_prop in Hm as [Hm _]. apply andb_prop in Hm as [Hm _]. exact Hm.
Qed.

End Chains.

Section Collector.

Context {dom : DOM}.

(** ** The iterative collector *)

(** Names the candidate that a turn of the loop pushes for the element
    itself. *)
Ltac name_own own :=
  match goal with
  | |- context [if ?c then [Element ?e] else []] =>
      set (own := if c then [Element e] else [])
  end.

Lemma leaves_scope_or_flat (flatten : bool) (e : Node) (nested : list Candidate) :
  flat_map leaves (if flatten then nested else [CandidateScope e nested]) =
  flat_map leaves nested.
Proof. destruct flatten; simpl; [reflexivity|apply app_nil_r]. Qed.

Lemma getCandidatesIteratively_loop_accepts (options : IterativeOptions) (fuel : nat) :
  forall elements includeContainer_ elementsToCheck l,
  getCandidatesIteratively_loop fuel elements includeContainer_ options elementsToCheck
    = Some l ->
  Forall (Accepted options) (flat_map leaves l).
Proof.
  induction fuel as [|fuel IH]; intros elements ic queue l;
    cbn [getCandidatesIteratively_loop]; [discriminate|].
  destruct queue as [|element rest]; [intros [= <-]; constructor|].
  destruct (isInert (Some element) false); [apply IH|].
  destruct (isSlot element) eqn:Eslot.
  - destruct (getCandidatesIteratively_loop fuel _ true options _) as [nested|] eqn:E1;
      [|discriminate].
    destruct (getCandidatesIteratively_loop fuel elements ic options rest) as [later|] eqn:E2;
      [|discriminate].
    intros [= <-]. rewrite flat_map_app, leaves_scope_or_flat.
    apply Forall_app. split; [apply (IH _ _ _ _ E1)|apply (IH _ _ _ _ E2)].
  - name_own own.
    assert (Hown : Forall (Accepted options) (flat_map leaves own)).
    { subst own.
      destruct (matches element candidateSelector) eqn:Em; simpl; [|constructor].
      destruct (iter_filter options element) eqn:Ef; simpl; [|constructor].
      destruct (ic || negb (includes elements element)); simpl; constructor;
        [now repeat split|constructor]. }
    destruct (shadowRootTruthy (shadowRootOf options element) && _).
    + destruct (getCandidatesIteratively_loop fuel _ true options _) as [nested|] eqn:E1;
        [|discriminate].
      destruct (getCandidatesIteratively_loop fuel elements ic options rest)
        as [later|] eqn:E2; [|discriminate].
      intros [= <-]. rewrite !flat_map_app, leaves_scope_or_flat.
      apply Forall_app. split; [exact Hown|].
      apply Forall_app. split; [apply (IH _ _ _ _ E1)|apply (IH _ _ _ _ E2)].
    + destruct (getCandidatesIteratively_loop fuel elements ic options _)
        as [later|] eqn:E2; [|discriminate].
      intros [= <-]. rewrite flat_map_app.
      apply Forall_app. split; [exact Hown|apply (IH _ _ _ _ E2)].
Qed.

Lemma NoScope_flatElements (l : list Candidate) :
  NoScope l -> map Element (flatElements l) = l.
Proof.
  induction 1 as [|c l [e ->] _ IH]; simpl; [reflexivity|now rewrite IH].
Qed.

Lemma getCandidatesIteratively_loop_flat (options : IterativeOptions) (fuel : nat) :
  iter_flatten options = true ->
  forall elements includeContainer_ elementsToCheck l,
  getCandidatesIteratively_loop fuel elements includeContainer_ options elementsToCheck
    = Some l ->
  NoScope l.
Proof.
  intros Hflat. unfold NoScope.
  induction fuel as [|fuel IH]; intros elements ic queue l;
    cbn [getCandidatesIteratively_loop]; [discriminate|].
  destruct queue as [|element rest]; [intros [= <-]; constructor|].
  destruct (isInert (Some element) false); [apply IH|].
  rewrite Hflat.
  destruct (isSlot element).
  - destruct (getCandidatesIteratively_loop fuel _ true options _) as [nested|] eqn:E1;
      [|discriminate].
    destruct (getCandidatesIteratively_loop fuel elements ic options rest) as [later|] eqn:E2;
      [|discriminate].
    intros [= <-]. apply Forall_app. split; [apply (IH _ _ _ _ E1)|apply (IH _ _ _ _ E2)].
  - name_own own.
    assert (Hown : Forall (fun c => exists e, c = Element e) own).
    { subst own. destruct (_ && _ && _); repeat constructor. now exists element. }
    destruct (shadowRootTruthy (shadowRootOf options element) && _).
    + destruct (getCandidatesIteratively_loop fuel _ true options _) as [nested|] eqn:E1;
        [|discriminate].
      destruct (getCandidatesIteratively_loop fuel elements ic options rest)
        as [later|] eqn:E2; [|discriminate].
      intros [= <-].
      apply Forall_app. split; [exact Hown|].
      apply Forall_app. split; [apply (IH _ _ _ _ E1)|apply (IH _ _ _ _ E2)].
    + destruct (getCandidatesIteratively_loop fuel elements ic options _)
        as [later|] eqn:E2; [|discriminate].
      intros [= <-]. apply Forall_app. split; [exact Hown|apply (IH _ _ _ _ E2)].
Qed.

Lemma flatElements_leaves (l : list Candidate) (x : Node) :
  In x (flatElements l) -> In x (flat_map leaves l).
Proof.
  induction l as [|[e|p inner] l IH]; simpl; [tauto| |].
  - intros [H|H]; [now left|right; now apply IH].
  - intros H. apply in_or_app. right. now apply IH.
Qed.

(** More fuel does not change a result. *)
Lemma getCandidatesIteratively_loop_fuel (options : IterativeOptions) (fuel : nat) :
  forall fuel' elements includeContainer_ elementsToCheck l,
  (fuel <= fuel')%nat ->
  getCandidatesIteratively_loop fuel elements includeContainer_ options elementsToCheck
    = Some l ->
  getCandidatesIteratively_loop fuel' elements includeContainer_ options elementsToCheck
    = Some l.
Proof.
  induction fuel as [|fuel IH]; intros fuel' elements ic queue l Hle;
    cbn [getCandidatesIteratively_loop]; [discriminate|].
  destruct fuel' as [|fuel']; [lia|]. assert (Hle' : (fuel <= fuel')%nat) by lia.
  cbn [getCandidatesIteratively_loop].
  destruct queue as [|element rest]; [trivial|].
  destruct (isInert (Some element) false); [now apply IH|].
  destruct (isSlot element).
  - destruct (getCandidatesIteratively_loop fuel _ true options _) as [nested|] eqn:E1;
      [|discriminate].
    destruct (getCandidatesIteratively_loop fuel elements ic options rest) as [later|] eqn:E2;
      [|discriminate].
    now rewrite (IH _ _ _ _ _ Hle' E1), (IH _ _ _ _ _ Hle' E2).
  - destruct (shadowRootTruthy (shadowRootOf options element) && _).
    + destruct (getCandidatesIteratively_loop fuel _ true options _) as [nested|] eqn:E1;
        [|discriminate].
      destruct (getCandidatesIteratively_loop fuel elements ic options rest)
        as [later|] eqn:E2; [|discriminate].
      now rewrite (IH _ _ _ _ _ Hle' E1), (IH _ _ _ _ _ Hle' E2).
    + destruct (getCandidatesIteratively_loop fuel elements ic options _)
        as [later|] eqn:E2; [|discriminate].
      now rewrite (IH _ _ _ _ _ Hle' E2).
Qed.

(** ** Termination of the collector *)

Lemma Terminates_nil (options : IterativeOptions) : Terminates options [].
Proof. intros elements ic. now exists 1%nat, []. Qed.

Lemma Terminates_app (options : IterativeOptions) (l : list Node) :
  (forall c, In c l -> forall rest, Terminates options rest -> Terminates options (c :: rest)) ->
  forall rest, Terminates options rest -> Terminates options (l ++ rest).
Proof.
  induction l as [|c l IH]; intros Hl rest Hrest; simpl; [exact Hrest|].
  apply Hl; [now left|]. apply IH; [|exact Hrest].
  intros c' Hc'. apply Hl. now right.
Qed.

Lemma Terminates_cons (options : IterativeOptions) (rank : Node -> nat) :
  Ranked options rank ->
  forall k e, (rank e < k)%nat ->
  forall rest, Terminates options rest -> Terminates options (e :: rest).
Proof.
  intros (Hchildren & Hassigned & Hshadow).
  induction k as [|k IH]; intros e He rest Hrest; [lia|].
  assert (Hbelow : forall content, (forall c, In c content -> (rank c < rank e)%nat) ->
                   forall rest', Terminates options rest' ->
                   Terminates options (content ++ rest')).
  { intros content Hcontent rest' Hrest'. apply Terminates_app; [|exact Hrest'].
    intros c Hc. apply IH. specialize (Hcontent c Hc). lia. }
  intros elements ic.
  destruct (Hrest elements ic) as (f2 & later & E2).
  destruct (isInert (Some e) false) eqn:Einert.
  { exists (S f2), later. cbn [getCandidatesIteratively_loop]. now rewrite Einert. }
  destruct (isSlot e) eqn:Eslot.
  { set (content := match assignedElements e with
                    | [] => children e
                    | _ => assignedElements e
                    end).
    assert (Hcontent : forall c, In c content -> (rank c < rank e)%nat).
    { subst content. intros c. destruct (assignedElements e) eqn:Ea.
      - apply Hchildren.
      - rewrite <- Ea. apply Hassigned. }
    pose proof (Hbelow content Hcontent [] (Terminates_nil options)) as Hc.
    rewrite app_nil_r in Hc. destruct (Hc content true) as (f1 & nested & E1).
    exists (S (Nat.max f1 f2)). eexists. cbn [getCandidatesIteratively_loop].
    rewrite Einert, Eslot. fold content.
    rewrite (getCandidatesIteratively_loop_fuel _ _ _ _ (Nat.le_max_l f1 f2) E1).
    rewrite (getCandidatesIteratively_loop_fuel _ _ _ _ (Nat.le_max_r f1 f2) E2).
    reflexivity. }
  destruct (shadowRootTruthy (shadowRootOf options e) &&
            (negb (isInert (shadowRootNode (shadowRootOf options e)) false) &&
             match iter_shadowRootFilter options with
             | Some shadowRootFilter => shadowRootFilter e
             | None => true
             end)) eqn:Eshadow.
  - set (content := match shadowRootOf options e with
                    | SR_root r => children r
                    | _ => children e
                    end).
    assert (Hcontent : forall c, In c content -> (rank c < rank e)%nat).
    { subst content. intros c. destruct (shadowRootOf options e) as [r| |] eqn:Er.
      - now apply Hshadow.
      - apply Hchildren.
      - apply Hchildren. }
    pose proof (Hbelow content Hcontent [] (Terminates_nil options)) as Hc.
    rewrite app_nil_r in Hc. destruct (Hc content true) as (f1 & nested & E1).
    exists (S (Nat.max f1 f2)). eexists. cbn [getCandidatesIteratively_loop].
    rewrite Einert, Eslot, Eshadow. fold content.
    rewrite (getCandidatesIteratively_loop_fuel _ _ _ _ (Nat.le_max_l f1 f2) E1).
    rewrite (getCandidatesIteratively_loop_fuel _ _ _ _ (Nat.le_max_r f1 f2) E2).
    reflexivity.
  - destruct (Hbelow (children e) (Hchildren e) rest Hrest elements ic)
      as (f1 & later' & E1).
    exists (S f1). eexists. cbn [getCandidatesIteratively_loop].
    rewrite Einert, Eslot, Eshadow, E1. reflexivity.
Qed.

(** In a ranked DOM the collector returns, given enough fuel. *)
Lemma getCandidatesIteratively_terminates (options : IterativeOptions)
    (rank : Node -> nat) (elements : list Node) (includeContainer_ : bool) :
  Ranked options rank ->
  exists fuel l,
    getCandidatesIteratively fuel elements includeContainer_ options = Some l.
Proof.
  intros Hranked. unfold getCandidatesIteratively.
  assert (H : Terminates options (elements ++ [])).
  { apply Terminates_app; [|apply Terminates_nil].
    intros c _. apply (Terminates_cons Hranked (k := S (rank c))). lia. }
  rewrite app_nil_r in H. apply H.
Qed.

End Collector.

(** ** Sorting *)

Section ArraySortFacts.

Variable A : Type.
Variable compare : A -> A -> Z.

Let le (a b : A) : Prop := compare a b <= 0.

Lemma insertSorted_Permutation (x : A) (l : list A) :
  Permutation (insertSorted compare x l) (x :: l).
Proof.
  induction l as [|y l IH]; simpl; [reflexivity|].
  destruct (compare x y <=? 0); [reflexivity|].
  rewrite IH. apply perm_swap.
Qed.

Lemma arraySort_Permutation (l : list A) : Permutation (arraySort compare l) l.
Proof.
  induction l as [|x l IH]; simpl; [reflexivity|].
  rewrite insertSorted_Permutation. now constructor.
Qed.

Hypothesis compare_total : forall a b, compare a b <= 0 \/ compare b a <= 0.

Lemma insertSorted_Sorted (x : A) (l : list A) :
  Sorted le l -> Sorted le (insertSorted compare x l).
Proof.
  induction 1 as [|y l Hl IH Hhd]; simpl; [repeat constructor|].
  destruct (compare x y <=? 0) eqn:E.
  - apply Z.leb_le in E. repeat constructor; assumption.
  - apply Z.leb_gt in E. constructor; [exact IH|].
    destruct l as [|z l]; simpl.
    + constructor. destruct (compare_total x y); [lia|assumption].
    + destruct (compare x z <=? 0).
      * constructor. destruct (compare_total x y); [lia|assumption].
      * inversion Hhd. now constructor.
Qed.

Lemma arraySort_Sorted (l : list A) : Sorted le (arraySort compare l).
Proof.
  induction l as [|x l IH]; simpl; [constructor|]. now apply insertSorted_Sorted.
Qed.

End ArraySortFacts.

Lemma arraySort_map (A B : Type) (g : A -> B) (compare : B -> B -> Z) (l : list A) :
  arraySort compare (map g l) = map g (arraySort (fun a b => compare (g a) (g b)) l).
Proof.
  induction l as [|x l IH]; simpl; [reflexivity|]. rewrite IH.
  generalize (arraySort (fun a b => compare (g a) (g b)) l) as s.
  induction s as [|y s IHs]; simpl; [reflexivity|].
  destruct (compare (g x) (g y) <=? 0); simpl; [reflexivity|now rewrite IHs].
Qed.

Lemma fold_left_push (A : Type) (f : A -> list Node) (l : list A) (acc : list Node) :
  fold_left (fun acc a => acc ++ f a) l acc = acc ++ flat_map f l.
Proof.
  revert acc. induction l as [|a l IH]; intros acc; simpl.
  - now rewrite app_nil_r.
  - now rewrite IH, app_assoc.
Qed.

Section Sorter.

Context {dom : DOM}.

Lemma partitionTabbables_spec (elems : Candidate -> list Node) (candidates : list Candidate) :
  forall i,
  partitionTabbables elems i candidates =
  (flat_map elems (filter (fun c => candidateTabindex c =? 0) candidates),
   map (sortableOf elems)
       (filter (fun ic => negb (candidateTabindex (snd ic) =? 0)) (positioned i candidates))).
Proof.
  induction candidates as [|item rest IH]; intros i; [reflexivity|].
  cbn [partitionTabbables]. rewrite IH. unfold positioned. cbn [List.length seq combine filter snd].
  fold (positioned (S i) rest).
  replace (getTabindex _ _) with (candidateTabindex item) by now destruct item.
  destruct (candidateTabindex item =? 0) eqn:E; cbn [negb flat_map map]; [reflexivity|].
  unfold sortableOf at 2. cbn [fst snd]. repeat f_equal.
Qed.

Lemma comparePositioned_le (elems : Candidate -> list Node) (a b : nat * Candidate) :
  comparePositioned elems a b <= 0 <->
  candidateTabindex (snd a) < candidateTabindex (snd b) \/
  (candidateTabindex (snd a) = candidateTabindex (snd b) /\ (fst a <= fst b)%nat).
Proof.
  unfold comparePositioned, sortOrderedTabbables. cbn.
  destruct (candidateTabindex (snd a) =? candidateTabindex (snd b)) eqn:E.
  - apply Z.eqb_eq in E. lia.
  - apply Z.eqb_neq in E. lia.
Qed.

Lemma positioned_fst (candidates : list Candidate) :
  forall i, map fst (positioned i candidates) = seq i (List.length candidates).
Proof.
  unfold positioned. induction candidates as [|c l IH]; intros i; simpl;
    [reflexivity|now rewrite IH].
Qed.

Lemma NoDup_map_fst_filter (A B : Type) (test : A * B -> bool) (l : list (A * B)) :
  NoDup (map fst l) -> NoDup (map fst (filter test l)).
Proof.
  induction l as [|x l IH]; simpl; [trivial|].
  intros H. inversion H as [|? ? Hnotin Hnodup]; subst.
  destruct (test x); simpl; [|now apply IH].
  constructor; [|now apply IH].
  intros Hin. apply Hnotin. rewrite in_map_iff in Hin |- *.
  destruct Hin as (y & Hy & Hin). exists y. split; [exact Hy|].
  now apply filter_In in Hin.
Qed.

Lemma ordered_strict (elems : Candidate -> list Node) (l : list (nat * Candidate)) :
  Sorted (fun a b => comparePositioned elems a b <= 0) l ->
  NoDup (map fst l) ->
  StronglySorted orderedBefore l.
Proof.
  intros Hsorted Hnodup.
  apply Sorted_StronglySorted in Hsorted.
  - induction Hsorted as [|a l Hl IH Hall]; [constructor|].
    simpl in Hnodup. inversion Hnodup as [|? ? Hnotin Hnodup']; subst.
    constructor; [now apply IH|].
    rewrite Forall_forall in Hall |- *. intros b Hb.
    specialize (Hall b Hb). apply comparePositioned_le in Hall.
    assert (fst a <> fst b).
    { intros Heq. apply Hnotin. rewrite Heq. now apply in_map. }
    unfold orderedBefore. lia.
  - intros a b c Hab Hbc. rewrite comparePositioned_le in *. lia.
Qed.

(** [sortWith] is the tab order: the items whose tab index is not 0, by tab
    index and then position, followed by the items whose tab index is 0 in
    their order; each item contributes [elems item]. *)
Lemma sortWith_spec (elems : Candidate -> list Node) (candidates : list Candidate) :
  exists ordered : list (nat * Candidate),
    Permutation ordered
      (filter (fun ic => negb (candidateTabindex (snd ic) =? 0)) (positioned 0 candidates)) /\
    StronglySorted orderedBefore ordered /\
    sortWith elems candidates =
      flat_map (fun ic => elems (snd ic)) ordered ++
      flat_map elems (filter (fun c => candidateTabindex c =? 0) candidates).
Proof.
  set (nonzero := filter _ (positioned 0 candidates)).
  exists (arraySort (comparePositioned elems) nonzero).
  assert (Hperm : Permutation (arraySort (comparePositioned elems) nonzero) nonzero)
    by apply arraySort_Permutation.
  split; [exact Hperm|]. split.
  - apply (ordered_strict elems).
    + apply arraySort_Sorted. intros a b.
      rewrite !comparePositioned_le. lia.
    + apply (Permutation_NoDup (l := map fst nonzero)).
      * apply Permutation_map. now symmetry.
      * subst nonzero. apply NoDup_map_fst_filter.
        rewrite positioned_fst. apply seq_NoDup.
  - unfold sortWith. rewrite partitionTabbables_spec. fold nonzero.
    rewrite fold_left_push. cbn [app]. f_equal.
    unfold comparePositioned.
    rewrite (arraySort_map (sortableOf elems) sortOrderedTabbables nonzero).
    rewrite flat_map_concat_map, map_map, <- flat_map_concat_map. reflexivity.
Qed.

Lemma sortWith_In (elems : Candidate -> list Node) (candidates : list Candidate) (x : Node) :
  In x (sortWith elems candidates) <->
  exists c, In c candidates /\ In x (elems c).
Proof.
  destruct (sortWith_spec elems candidates) as (ordered & Hperm & _ & ->).
  rewrite in_app_iff, !in_flat_map. split.
  - intros [((i, c) & Hic & Hx)|(c & Hc & Hx)].
    + exists c. split; [|exact Hx].
      apply (Permutation_in _ Hperm) in Hic. apply filter_In in Hic as [Hic _].
      unfold positioned in Hic. now apply in_combine_r in Hic.
    + exists c. split; [|exact Hx]. now apply filter_In in Hc.
  - intros (c & Hc & Hx).
    destruct (candidateTabindex c =? 0) eqn:E.
    + right. exists c. split; [|exact Hx]. apply filter_In. now split.
    + left. apply In_nth with (d := c) in Hc as (k & Hk & Hnth).
      exists (k, c). split; [|exact Hx].
      apply (Permutation_in _ (Permutation_sym Hperm)).
      apply filter_In. split; [|cbn; now rewrite E].
      unfold positioned.
      replace (k, c) with (nth k (combine (seq 0 (List.length candidates)) candidates) (O, c)).
      * apply nth_In. rewrite length_combine, length_seq. lia.
      * rewrite combine_nth by now rewrite length_seq.
        rewrite seq_nth by exact Hk. now rewrite Hnth.
Qed.

(** [sortByOrder] returns exactly the elements of its candidates. *)
Lemma elementsOf_leaves (x : Node) (item : Candidate) :
  In x (elementsOf item) <-> In x (leaves item).
Proof.
  induction item as [e|p inner IH] using Candidate_induction; [reflexivity|].
  cbn [elementsOf leaves]. rewrite sortWith_In, in_flat_map.
  rewrite Forall_forall in IH.
  split; intros (c & Hc & Hx); exists c; (split; [exact Hc|]); now apply IH.
Qed.

Lemma sortByOrder_In (x : Node) (candidates : list Candidate) :
  In x (sortByOrder candidates) <-> In x (flat_map leaves candidates).
Proof.
  unfold sortByOrder. rewrite sortWith_In, in_flat_map.
  split; intros (c & Hc & Hx); exists c; (split; [exact Hc|]); now apply elementsOf_leaves.
Qed.

Lemma sortByOrder_elements (l : list Node) :
  forall x, In x (sortByOrder (map Element l)) <-> In x l.
Proof.
  intros x. rewrite sortByOrder_In, in_flat_map. split.
  - intros (c & Hc & Hx). apply in_map_iff in Hc as (e & <- & He).
    destruct Hx as [<-|[]]. exact He.
  - intros H. exists (Element x). split; [now apply in_map|now left].
Qed.

End Sorter.

(* ================================================================== *)
(** * The properties of the specification *)
(* ================================================================== *)

Section Classifier.

Context {dom : DOM}.

Lemma isNodeMatchingSelectorFocusable_true (options : Options) (x : Node) :
  isNodeMatchingSelectorFocusable options x = true <->
  disabled x = false /\ inert x = false /\ isHiddenInput x = false /\
  isHidden x options = false /\ isDetailsWithSummary x = false /\
  isDisabledFromFieldset x = false.
Proof.
  unfold isNodeMatchingSelectorFocusable. rewrite isInert_self.
  destruct (disabled x), (inert x), (isHiddenInput x), (isHidden x options),
    (isDetailsWithSummary x), (isDisabledFromFieldset x); simpl; intuition discriminate.
Qed.

Lemma isNodeMatchingSelectorTabbable_true (options : Options) (x : Node) :
  isNodeMatchingSelectorTabbable options x = true <->
  isNonTabbableRadio x = false /\ 0 <= getTabindex x false /\
  isNodeMatchingSelectorFocusable options x = true.
Proof.
  unfold isNodeMatchingSelectorTabbable.
  destruct (isNonTabbableRadio x), (isNodeMatchingSelectorFocusable options x),
    (getTabindex x false <? 0) eqn:E; simpl;
    try apply Z.ltb_lt in E; try apply Z.ltb_ge in E; intuition (try discriminate; try lia).
Qed.

Lemma candidate_Focusability (options : Options) (x : Node) :
  matches x candidateSelector = true ->
  isNodeMatchingSelectorFocusable options x = true ->
  Focusability options x.
Proof.
  intros Hm Hf. apply isNodeMatchingSelectorFocusable_true in Hf.
  unfold Focusability. pose proof (candidate_not_inert _ Hm). tauto.
Qed.

Lemma candidate_Tabbability (options : Options) (x : Node) :
  matches x candidateSelector = true ->
  isNodeMatchingSelectorTabbable options x = true ->
  Tabbability options x.
Proof.
  intros Hm Ht. apply isNodeMatchingSelectorTabbable_true in Ht as (H1 & H2 & H3).
  unfold Tabbability. auto using candidate_Focusability.
Qed.

Lemma getCandidates_In (el : Node) (includeContainer_ : bool) (filter_ : Node -> bool)
    (x : Node) :
  In x (getCandidates el includeContainer_ filter_) ->
  matches x candidateSelector = true /\ filter_ x = true.
Proof.
  unfold getCandidates. destruct (isInert (Some el) true); [intros []|].
  rewrite filter_In. intros [Hx Hf]. split; [|exact Hf].
  assert (Hq : In x (querySelectorAll el candidateSelector) ->
               matches x candidateSelector = true).
  { unfold querySelectorAll. rewrite filter_In. tauto. }
  destruct (includeContainer_ && matches el candidateSelector) eqn:E; [|auto].
  destruct Hx as [<-|Hx]; [|auto]. now apply andb_prop in E.
Qed.

(** With shadow support, [focusable] is the flattened result of the
    collector, all of it. *)
Lemma focusable_iterative (fuel : nat) (el : Node) (options : Options) (l : list Node) :
  getShadowRootTruthy (getShadowRoot options) = true ->
  (focusable fuel el options = Some l <->
   getCandidatesIteratively fuel [el] (includeContainer options) (focusableOptions options)
     = Some (map Element l)).
Proof.
  intros Hshadow. unfold focusable. rewrite Hshadow. unfold getCandidatesIteratively.
  destruct (getCandidatesIteratively_loop _ _ _ _ _) as [c|] eqn:E; cbn [option_map].
  - apply getCandidatesIteratively_loop_flat in E; [|reflexivity].
    apply NoScope_flatElements in E. split.
    + intros [= <-]. now rewrite E.
    + intros [= ->]. f_equal. clear E. induction l as [|x l IH]; [reflexivity|].
      cbn [map flatElements]. now rewrite IH.
  - split; discriminate.
Qed.

(** What the two list queries return, in terms of the candidates that the
    collectors accept. *)
Lemma focusable_In (fuel : nat) (el : Node) (options : Options) (l : list Node) (x : Node) :
  focusable fuel el options = Some l -> In x l ->
  matches x candidateSelector = true /\
  isNodeMatchingSelectorFocusable options x = true /\
  (getShadowRootTruthy (getShadowRoot options) = true -> isSlot x = false).
Proof.
  unfold focusable. destruct (getShadowRootTruthy (getShadowRoot options)).
  - unfold getCandidatesIteratively.
    destruct (getCandidatesIteratively_loop _ _ _ _ _) as [c|] eqn:E; [|discriminate].
    intros [= <-] Hx. apply flatElements_leaves in Hx.
    apply getCandidatesIteratively_loop_accepts in E.
    rewrite Forall_forall in E. destruct (E x Hx) as (H1 & H2 & H3). auto.
  - intros [= <-] Hx. apply getCandidates_In in Hx as [H1 H2].
    repeat split; [exact H1|exact H2|discriminate].
Qed.

Lemma tabbable_In (fuel : nat) (el : Node) (options : Options) (l : list Node) (x : Node) :
  tabbable fuel el options = Some l -> In x l ->
  matches x candidateSelector = true /\
  isNodeMatchingSelectorTabbable options x = true /\
  (getShadowRootTruthy (getShadowRoot options) = true -> isSlot x = false).
Proof.
  unfold tabbable. destruct (getShadowRootTruthy (getShadowRoot options)).
  - unfold getCandidatesIteratively.
    destruct (getCandidatesIteratively_loop _ _ _ _ _) as [c|] eqn:E; [|discriminate].
    intros [= <-] Hx. apply (proj1 (sortByOrder_In _ _)) in Hx.
    apply getCandidatesIteratively_loop_accepts in E.
    rewrite Forall_forall in E. destruct (E x Hx) as (H1 & H2 & H3). auto.
  - intros [= <-] Hx. apply (proj1 (sortByOrder_elements _ _)) in Hx.
    apply getCandidates_In in Hx as [H1 H2].
    repeat split; [exact H1|exact H2|discriminate].
Qed.

(** C1.  Every element that [focusable] returns satisfies the full
    focusability predicate: it is not disabled, not inert itself or through
    an ancestor, not a hidden input, not hidden for [isHidden] under the
    caller's options, not a details element with a summary child, and not
    disabled by a fieldset.  Every element that [tabbable] returns
    satisfies it too, is not a non-tabbable radio, and has an effective tab
    index of at least 0. *)
Theorem returned_elements_are_focusable (fuel : nat) (el : Node) (options : Options) :
  (forall focusables,
     focusable fuel el options = Some focusables ->
     Forall (Focusability options) focusables) /\
  (forall tabbables,
     tabbable fuel el options = Some tabbables ->
     Forall (Tabbability options) tabbables).
Proof.
  split; intros l Hl; apply Forall_forall; intros x Hx.
  - edestruct focusable_In as (H1 & H2 & _); [exact Hl|exact Hx|].
    now apply candidate_Focusability.
  - edestruct tabbable_In as (H1 & H2 & _); [exact Hl|exact Hx|].
    now apply candidate_Tabbability.
Qed.

(** C2.  A node for which [isTabbable] returns true is a node for which
    [isFocusable] returns true, under the same options. *)
Theorem isTabbable_isFocusable (node : option Node) (options : Options) :
  isTabbable node options = Return true ->
  isFocusable node options = Return true.
Proof.
  unfold isTabbable, isFocusable. destruct node as [n|]; [|discriminate].
  destruct (matches n candidateSelector) eqn:Em; cbn [negb]; [|discriminate].
  rewrite (candidate_is_focusableCandidate _ Em). cbn [negb].
  intros [= Ht]. apply isNodeMatchingSelectorTabbable_true in Ht as (_ & _ & ->).
  reflexivity.
Qed.

End Classifier.

(** C1 on [shadowDom], with shadow support: the two buttons. *)
Lemma returned_elements_are_focusable_witness :
  Forall (Focusability (dom := shadowDom) withShadow) [4; 6]%nat /\
  Forall (Tabbability (dom := shadowDom) withShadow) [6; 4]%nat.
Proof.
  destruct (@returned_elements_are_focusable shadowDom 20%nat 1%nat withShadow)
    as (Hfocusable & Htabbable).
  split; [apply Hfocusable|apply Htabbable]; vm_compute; reflexivity.
Defined.

(** C2 on the checked radio of [radiosDom]. *)
Lemma isTabbable_isFocusable_witness :
  isFocusable (dom := radiosDom) (Some 3%nat) noOptions = Return true.
Proof.
  apply (isTabbable_isFocusable (dom := radiosDom) (Some 3%nat) noOptions).
  vm_compute. reflexivity.
Defined.

Section TabOrder.

Context {dom : DOM}.

(** X18.  For every list of candidates and scopes none of which has a
    negative effective tab index, [sortByOrder] returns first the items of
    positive tab index, by ascending tab index and then ascending position,
    and then the items of tab index 0 in document order; an element stands
    for itself, and a scope for its candidates sorted by [sortByOrder]. *)
Theorem sortByOrder_tab_order (candidates : list Candidate) :
  Forall (fun c => 0 <= candidateTabindex c) candidates ->
  TabOrder candidates (sortByOrder candidates) /\
  (forall e, elementsOf (Element e) = [e]) /\
  (forall p inner, elementsOf (CandidateScope p inner) = sortByOrder inner).
Proof.
  intros Hnonneg. split; [|split; reflexivity].
  destruct (sortWith_spec elementsOf candidates) as (ordered & Hperm & Hsorted & Heq).
  exists ordered. split; [|split; assumption].
  replace (filter (fun ic => 0 <? candidateTabindex (snd ic)) (positioned 0 candidates))
    with (filter (fun ic => negb (candidateTabindex (snd ic) =? 0)) (positioned 0 candidates));
    [exact Hperm|].
  apply filter_ext_in. intros (i, c) Hic. cbn [snd].
  unfold positioned in Hic. apply in_combine_r in Hic.
  rewrite Forall_forall in Hnonneg. specialize (Hnonneg c Hic).
  destruct (candidateTabindex c =? 0) eqn:E1, (0 <? candidateTabindex c) eqn:E2;
    try reflexivity;
    [apply Z.eqb_eq in E1|apply Z.eqb_neq in E1]; [apply Z.ltb_lt in E2|apply Z.ltb_ge in E2];
    lia.
Qed.

End TabOrder.

(** C3.  The code breaks the claim where a scope has a negative tab index.
    The slot of [shadowDom] carries [tabindex="-1"]; the slot branch of the
    collector makes it a scope without the test that the branch of the
    shadow hosts applies, [isValidShadowRootTabbable], which rejects this
    node, as the classifier of [tabbable] does.  [sortByOrder] files the
    scope among the ordered items, before the button of tab index 1, and
    [tabbable] returns the button of the slot first. *)
Lemma sortByOrder_negative_scope_first :
  getCandidatesIteratively (dom := shadowDom) 20 [1%nat] false
    (tabbableOptions (dom := shadowDom) withShadow)
    = Some [CandidateScope 2 slotCandidates] /\
  map (candidateTabindex (dom := shadowDom)) slotCandidates = [1; -1] /\
  sortByOrder (dom := shadowDom) slotCandidates = [6; 4]%nat /\
  ~ TabOrder (dom := shadowDom) slotCandidates (sortByOrder (dom := shadowDom) slotCandidates) /\
  tabbable (dom := shadowDom) 20 1 withShadow = Some [6; 4]%nat /\
  isSlot (dom := shadowDom) 5 = true /\
  getAttribute (DOM := shadowDom) 5 "tabindex" = Some "-1" /\
  isValidShadowRootTabbable (dom := shadowDom) 5 = false /\
  isNodeMatchingSelectorTabbable (dom := shadowDom) withShadow 5 = false.
Proof.
  repeat split; try (vm_compute; reflexivity).
  intros (ordered & Hperm & _ & Heq).
  assert (Hpos : filter (fun ic => 0 <? candidateTabindex (dom := shadowDom) (snd ic))
                        (positioned 0 slotCandidates) = [(0%nat, Element 4)])
    by (vm_compute; reflexivity).
  rewrite Hpos in Hperm. apply Permutation_sym, Permutation_length_1_inv in Hperm.
  subst ordered. vm_compute in Heq. discriminate.
Qed.

(** X18 on a list of [shadowDom] whose tab indices are 0, 0 and 1. *)
Lemma sortByOrder_tab_order_witness :
  TabOrder (dom := shadowDom)
    [Element 6; CandidateScope 2 [Element 4]; Element 4]
    (sortByOrder (dom := shadowDom) [Element 6; CandidateScope 2 [Element 4]; Element 4]) /\
  sortByOrder (dom := shadowDom) [Element 6; CandidateScope 2 [Element 4]; Element 4]
    = [4; 6; 4]%nat.
Proof.
  split; [|vm_compute; reflexivity].
  apply (@sortByOrder_tab_order shadowDom
           [Element 6; CandidateScope 2 [Element 4]; Element 4]).
  repeat constructor; vm_compute; discriminate.
Defined.

Section Radios.

Context {dom : DOM}.

Lemma find_filter (A : Type) (p q : A -> bool) (l : list A) :
  find (fun a => p a && q a) l = find p (filter q l).
Proof.
  induction l as [|a l IH]; simpl; [reflexivity|].
  destruct (q a); simpl; [|now rewrite andb_false_r].
  rewrite andb_true_r. now destruct (p a).
Qed.

Lemma getCheckedRadio_group (node : Node) :
  getCheckedRadio (sameNameRadios node) (form node) = find checked (radioGroup node).
Proof. apply find_filter. Qed.

Lemma isTabbableRadio_built (node : Node) :
  SelectorBuilt node -> name node <> "" ->
  isTabbableRadio node =
  {| value := match find checked (radioGroup node) with
              | None => true
              | Some c => same_node c node
              end;
     console := [] |}.
Proof.
  intros Hbuilt Hname. unfold isTabbableRadio.
  apply String.eqb_neq in Hname. rewrite Hname.
  fold (sameNameRadios node).
  destruct CSS_escape eqn:E.
  - now rewrite getCheckedRadio_group.
  - destruct Hbuilt as [Hb|Hb]; [congruence|].
    now rewrite Hb, getCheckedRadio_group.
Qed.

Lemma isNonTabbableRadio_first_checked (node : Node) :
  isRadio node = true -> SelectorBuilt node ->
  (isNonTabbableRadio node = true <->
   name node <> "" /\ exists c, find checked (radioGroup node) = Some c /\ c <> node).
Proof.
  intros Hradio Hbuilt. unfold isNonTabbableRadio. rewrite Hradio. cbn [andb].
  destruct (string_dec (name node) "") as [Hname|Hname].
  - unfold isTabbableRadio. rewrite Hname. cbn. split; [discriminate|tauto].
  - rewrite (isTabbableRadio_built Hbuilt Hname). cbn [value].
    destruct (find checked (radioGroup node)) as [c|]; cbn.
    + split.
      * intros H. split; [exact Hname|]. exists c. split; [reflexivity|].
        intros ->. unfold same_node in H. now rewrite Nat.eqb_refl in H.
      * intros (_ & c' & [= <-] & Hne). apply negb_true_iff. now apply Nat.eqb_neq.
    + split; [discriminate|]. now intros (_ & c' & [=] & _).
Qed.

(** C4, amended.  Provided the group lookup selects the same-name radios
    ([CSS.escape] is available, or the selector built from the name as it
    is selects them), a radio is non-tabbable exactly when it has a name and
    the checked member of its group is another radio; the group is made of
    the same-name radios below its form owner, or below its root when it
    has no form owner, that have the same form owner, and its checked
    member is the first one in document order, the only one when at most
    one member is checked.  A radio without a name is tabbable.
    [tabbable] never returns a non-tabbable radio; over the div of
    [radiosDom], whose three radios share a name and whose second is
    checked, [tabbable] returns the second only and [focusable] all
    three. *)
Theorem radio_grouping (node : Node) :
  isRadio node = true -> SelectorBuilt node ->
  (name node = "" -> isNonTabbableRadio node = false) /\
  (isNonTabbableRadio node = true <->
   name node <> "" /\ exists c, find checked (radioGroup node) = Some c /\ c <> node) /\
  ((forall a b, In a (radioGroup node) -> In b (radioGroup node) ->
                checked a = true -> checked b = true -> a = b) ->
   (isNonTabbableRadio node = true <->
    name node <> "" /\
    exists c, In c (radioGroup node) /\ checked c = true /\ c <> node)) /\
  (forall fuel el options l,
     tabbable fuel el options = Some l -> isNonTabbableRadio node = true -> ~ In node l) /\
  tabbable (dom := radiosDom) 10 1 noOptions = Some [3%nat] /\
  focusable (dom := radiosDom) 10 1 noOptions = Some [2; 3; 4]%nat.
Proof.
  intros Hradio Hbuilt.
  pose proof (isNonTabbableRadio_first_checked Hradio Hbuilt) as Hfirst.
  split; [|split; [exact Hfirst|split; [|split; [|split; vm_compute; reflexivity]]]].
  - intros Hname. apply not_true_is_false. intros E. apply Hfirst in E. tauto.
  - intros Hunique. rewrite Hfirst. split.
    + intros (Hname & c & Hc & Hne). split; [exact Hname|].
      exists c. apply find_some in Hc. tauto.
    + intros (Hname & c & Hc & Hchecked & Hne). split; [exact Hname|].
      destruct (find checked (radioGroup node)) as [c'|] eqn:E.
      * exists c'. split; [reflexivity|]. apply find_some in E as [Hc' Hchecked'].
        now rewrite (Hunique _ _ Hc' Hc Hchecked' Hchecked).
      * now rewrite (find_none _ _ E _ Hc) in Hchecked.
  - intros fuel el options l Ht Hnon Hin.
    edestruct tabbable_In as (_ & Hfilter & _); [exact Ht|exact Hin|].
    apply isNodeMatchingSelectorTabbable_true in Hfilter as (Hno & _).
    congruence.
Qed.

(** C5.  Without [CSS.escape], when the selector built from the name of a
    radio is not valid, [isTabbableRadio] catches the error, writes one
    diagnostic with the message of the error, and returns false; the radio
    is non-tabbable, [isTabbable] returns false for it without throwing, and
    [tabbable] returns a list that leaves it out. *)
Theorem invalid_radio_name_fails_closed (node : Node) (message : string) :
  CSS_escape = false ->
  name node <> "" ->
  queryRadiosRaw (radioScope node) (name node) = SyntaxError message ->
  isTabbableRadio node =
    {| value := false; console := [(consoleErrorText ++ message)%string] |} /\
  (isRadio node = true ->
   isNonTabbableRadio node = true /\
   forall options,
     isNodeMatchingSelectorTabbable options node = false /\
     isTabbable (Some node) options = Return false /\
     forall fuel el l, tabbable fuel el options = Some l -> ~ In node l).
Proof.
  intros Hescape Hname Hraw.
  assert (Hrun : isTabbableRadio node =
                 {| value := false; console := [(consoleErrorText ++ message)%string] |}).
  { unfold isTabbableRadio. apply String.eqb_neq in Hname.
    now rewrite Hname, Hescape, Hraw. }
  split; [exact Hrun|]. intros Hradio.
  assert (Hnon : isNonTabbableRadio node = true).
  { unfold isNonTabbableRadio. now rewrite Hradio, Hrun. }
  split; [exact Hnon|]. intros options.
  assert (Hfilter : isNodeMatchingSelectorTabbable options node = false).
  { unfold isNodeMatchingSelectorTabbable. now rewrite Hnon. }
  repeat split.
  - exact Hfilter.
  - unfold isTabbable. rewrite Hfilter. now destruct (negb _).
  - intros fuel el l Ht Hin.
    edestruct tabbable_In as (_ & Hf & _); [exact Ht|exact Hin|]. congruence.
Qed.

End Radios.

(** C4 as it was stated fails in a browser without [CSS.escape], for a
    radio whose name breaks the selector: no radio of the document is
    checked, and the radio is non-tabbable all the same. *)
Lemma unchecked_group_yet_non_tabbable :
  isRadio (dom := unescapableDom) 2 = true /\
  name (dom := unescapableDom) 2 = unescapableName /\
  existsb (checked (DOM := unescapableDom)) [0; 1; 2]%nat = false /\
  radioGroup (dom := unescapableDom) 2 = [2%nat] /\
  isNonTabbableRadio (dom := unescapableDom) 2 = true /\
  tabbable (dom := unescapableDom) 10 1 noOptions = Some [] /\
  focusable (dom := unescapableDom) 10 1 noOptions = Some [2%nat].
Proof. repeat split; vm_compute; reflexivity. Qed.

(** C4, amended, on the first radio of [radiosDom]. *)
Lemma radio_grouping_witness :
  (isNonTabbableRadio (dom := radiosDom) 2 = true <->
   name (dom := radiosDom) 2 <> "" /\
   exists c, find (checked (DOM := radiosDom)) (radioGroup (dom := radiosDom) 2) = Some c /\
             c <> 2%nat) /\
  isNonTabbableRadio (dom := radiosDom) 2 = true /\
  isNonTabbableRadio (dom := radiosDom) 3 = false.
Proof.
  split; [|split; vm_compute; reflexivity].
  apply (@radio_grouping radiosDom 2%nat); [vm_compute; reflexivity|].
  left. reflexivity.
Defined.

(** C5 on the radio of [unescapableDom]. *)
Lemma invalid_radio_name_fails_closed_witness :
  isTabbableRadio (dom := unescapableDom) 2 =
    {| value := false;
       console := [(consoleErrorText ++ "not a valid selector")%string] |} /\
  isTabbable (dom := unescapableDom) (Some 2%nat) noOptions = Return false.
Proof.
  destruct (@invalid_radio_name_fails_closed unescapableDom 2%nat "not a valid selector")
    as (Hrun & Hrest); try (vm_compute; reflexivity).
  - vm_compute. discriminate.
  - split; [exact Hrun|].
    destruct Hrest as (_ & Hall); [vm_compute; reflexivity|].
    apply (Hall noOptions).
Defined.

Section Fieldsets.

Context {dom : DOM}.

Lemma nested_selector (n : Node) :
  matches n [Descendant (Tag "fieldset" :& Attr "disabled") Universal] =
  nestedInDisabledFieldset n.
Proof.
  unfold matches, nestedInDisabledFieldset. cbn [existsb matchesSelector andb].
  rewrite orb_false_r.
  induction (elementAncestors n) as [|a l IH]; [reflexivity|].
  cbn [existsb]. rewrite IH. f_equal.
  unfold isDisabledFieldset. change (toUpperCase "fieldset") with "FIELDSET".
  destruct (tagName a =? "FIELDSET")%string eqn:E; [|reflexivity].
  apply String.eqb_eq in E. now rewrite (fieldset_disabled _ E).
Qed.

Lemma legendDecision_exempt (node fieldset_ : Node) :
  legendDecision node fieldset_ = negb (legendExempt node fieldset_).
Proof.
  unfold legendDecision, legendExempt, inFirstLegend. rewrite nested_selector.
  destruct (find _ (children fieldset_)) as [legend|]; [|reflexivity].
  destruct (nestedInDisabledFieldset fieldset_); [now rewrite andb_false_r|].
  now rewrite andb_true_r.
Qed.

Lemma isDisabledFromFieldset_loop_find (fuel : nat) (node : Node) : forall p,
  isDisabledFromFieldset_loop fuel node (Some p) =
  match find isDisabledFieldset (p :: parentElements fuel p) with
  | Some f => legendDecision node f
  | None => false
  end.
Proof.
  induction fuel as [|fuel IH]; intros p; cbn [isDisabledFromFieldset_loop parentElements find].
  - now destruct (isDisabledFieldset p).
  - destruct (isDisabledFieldset p); [reflexivity|].
    destruct (parentElement p) as [q|]; [apply IH|now destruct fuel].
Qed.

(** The loop of [isDisabledFromFieldset] decides on the nearest disabled
    fieldset above the node. *)
Lemma isDisabledFromFieldset_nearest (node : Node) :
  isDisabledFromFieldset node =
  isFormControl node &&
  match find isDisabledFieldset (elementAncestors node) with
  | Some f => legendDecision node f
  | None => false
  end.
Proof.
  unfold isDisabledFromFieldset. destruct (isFormControl node); [|reflexivity].
  cbn [andb]. rewrite elementAncestors_unfold.
  destruct (parentElement node) as [p|] eqn:Ep; [|now destruct (depth node)].
  rewrite isDisabledFromFieldset_loop_find.
  pose proof (depth_parentElement _ Ep).
  now rewrite (@parentElements_fuel _ (depth node) (depth p) p) by lia.
Qed.

(** Every disabled fieldset above a node is the nearest one or lies above
    the nearest one. *)
Lemma nearest_disabled_fieldset (k : nat) : forall n nearest,
  (depth n < k)%nat ->
  find isDisabledFieldset (elementAncestors n) = Some nearest ->
  forall f, In f (elementAncestors n) -> isDisabledFieldset f = true ->
  f = nearest \/ In f (elementAncestors nearest).
Proof.
  induction k as [|k IH]; intros n nearest Hk; [lia|].
  rewrite elementAncestors_unfold.
  destruct (parentElement n) as [p|] eqn:Ep; [|discriminate].
  pose proof (depth_parentElement _ Ep) as Hp.
  cbn [find]. destruct (isDisabledFieldset p) eqn:Edf.
  - intros [= <-] f [<-|Hf] _; [now left|now right].
  - intros Hfind f [<-|Hf] Hdf; [congruence|].
    apply (IH p); [lia|exact Hfind|exact Hf|exact Hdf].
Qed.

(** C6.  [isDisabledFromFieldset] holds of a node exactly when the node is
    a form control (input, button, select, textarea) and lies inside a
    disabled fieldset from which it is not exempt; it is exempt from a
    disabled fieldset when it is a descendant of the first legend child of
    that fieldset and that fieldset is not itself inside another disabled
    fieldset.  A node of which it holds is neither focusable nor tabbable.
    In [fieldsetDom], of the three inputs only the one in the legend of the
    outer fieldset is returned by [tabbable] and [focusable]. *)
Theorem disabled_fieldset_and_legend (node : Node) :
  (isDisabledFromFieldset node = true <->
   isFormControl node = true /\
   exists f, In f (elementAncestors node) /\ isDisabledFieldset f = true /\
             legendExempt node f = false) /\
  (forall options,
     isDisabledFromFieldset node = true ->
     isNodeMatchingSelectorFocusable options node = false /\
     isNodeMatchingSelectorTabbable options node = false) /\
  map (isDisabledFromFieldset (dom := fieldsetDom)) [4; 5; 8]%nat = [false; true; true] /\
  tabbable (dom := fieldsetDom) 10 1 noOptions = Some [4%nat] /\
  focusable (dom := fieldsetDom) 10 1 noOptions = Some [4%nat].
Proof.
  split; [|split; [|repeat split; vm_compute; reflexivity]].
  - rewrite isDisabledFromFieldset_nearest, andb_true_iff. split.
    + intros [Hcontrol Hdecision]. split; [exact Hcontrol|].
      destruct (find isDisabledFieldset (elementAncestors node)) as [f|] eqn:E;
        [|discriminate].
      exists f. apply find_some in E as [Hin Hdf].
      rewrite legendDecision_exempt in Hdecision. apply negb_true_iff in Hdecision. tauto.
    + intros (Hcontrol & f & Hin & Hdf & Hexempt). split; [exact Hcontrol|].
      destruct (find isDisabledFieldset (elementAncestors node)) as [nearest|] eqn:E.
      * rewrite legendDecision_exempt. apply negb_true_iff.
        destruct (@nearest_disabled_fieldset (S (depth node)) node nearest
                    (Nat.lt_succ_diag_r _) E f Hin Hdf) as [<-|Habove];
          [exact Hexempt|].
        unfold legendExempt, nestedInDisabledFieldset.
        replace (existsb isDisabledFieldset (elementAncestors nearest)) with true;
          [now rewrite andb_false_r|].
        symmetry. apply existsb_exists. now exists f.
      * now rewrite (find_none _ _ E _ Hin) in Hdf.
  - intros options H. split.
    + unfold isNodeMatchingSelectorFocusable. rewrite H.
      now rewrite !orb_true_r.
    + unfold isNodeMatchingSelectorTabbable, isNodeMatchingSelectorFocusable. rewrite H.
      now rewrite !orb_true_r.
Qed.

End Fieldsets.

Section Visibility.

Context {dom : DOM}.

Lemma isHidden_regardless (node : Node) (options : Options) :
  hiddenRegardless node = true -> isHidden node options = true.
Proof.
  unfold hiddenRegardless, isHidden.
  destruct (visibility node =? "hidden")%string; [reflexivity|].
  cbn [orb]. now intros ->.
Qed.

(** The first summary of a details element has a parent element, the
    details element, which [isHidden] then looks at. *)
Lemma isDirectSummary_parent (node : Node) :
  isDirectSummary node = true ->
  exists details,
    parentElement node = Some details /\ tagName details = "DETAILS" /\
    nodeUnderDetails node = details.
Proof.
  intros H. unfold nodeUnderDetails. rewrite H.
  unfold isDirectSummary, matches in H. cbn [existsb matchesSelector] in H.
  rewrite orb_false_r in H. apply andb_prop in H as [_ H].
  destruct (parentElement node) as [details|]; [|discriminate].
  exists details. repeat split. now apply String.eqb_eq in H.
Qed.

(** C7, amended.  Under [displayCheck: 'none'], [isHidden] reports a node
    hidden exactly when its computed visibility is [hidden] or it lies under
    a details element that is not open (for the first summary of a details
    element: when that details element does); its display and geometry
    never hide it. *)
Theorem isHidden_none (node : Node) (options : Options) :
  displayCheck options = Some "none" ->
  isHidden node options = hiddenRegardless node.
Proof.
  intros Hmode. unfold isHidden, hiddenRegardless. rewrite Hmode.
  destruct (visibility node =? "hidden")%string; [reflexivity|].
  now destruct (underClosedDetails node).
Qed.

(** C8, amended.  A node that is not attached to the document, when the
    undisclosed-shadow fallback does not apply, is reported hidden under
    [displayCheck] ['full'] or unset; under ['legacy-full'] it is reported
    visible unless its computed visibility is [hidden] or it lies under a
    closed details element.  Under ['non-zero-area'] a node, attached or
    not, is reported hidden exactly when its bounding box has zero width
    and zero height, or its computed visibility is [hidden], or it lies
    under a closed details element. *)
Theorem isHidden_display_modes (node : Node) (options : Options) :
  (falsyString (displayCheck options) = true \/ displayCheck options = Some "full" ->
   undisclosedShadow node options = None ->
   isNodeAttached node = false ->
   isHidden node options = true) /\
  (displayCheck options = Some "legacy-full" ->
   undisclosedShadow node options = None ->
   isNodeAttached node = false ->
   isHidden node options = hiddenRegardless node) /\
  (displayCheck options = Some "non-zero-area" ->
   isHidden node options = hiddenRegardless node || isZeroArea node).
Proof.
  unfold isHidden, hiddenRegardless.
  destruct (visibility node =? "hidden")%string; [now repeat split|].
  destruct (underClosedDetails node); [now repeat split|].
  cbn [orb]. split; [|split].
  - intros Hmode Hwalk Hattached. rewrite Hwalk, Hattached.
    destruct Hmode as [Hmode|Hmode]; rewrite Hmode; [|reflexivity].
    cbn [orb]. destruct (displayCheck options) as [s|]; [|reflexivity].
    cbn in Hmode. apply String.eqb_eq in Hmode. now subst s.
  - intros Hmode Hwalk Hattached. now rewrite Hmode, Hwalk, Hattached.
  - intros Hmode. now rewrite Hmode.
Qed.

(** C9, amended.  The effective tab index is the tab index of the node,
    except that a negative tab index becomes 0 exactly when the node is a
    scope, an audio, video or details element (with or without controls),
    or content editable, and its [tabindex] attribute is absent or holds no
    integer for [parseInt]. *)
Theorem getTabindex_normalisation (node : Node) (isScope : bool) :
  getTabindex node isScope = (if normalisesTabindex node isScope then 0 else tabIndex node) /\
  (getTabindex node isScope = tabIndex node <-> normalisesTabindex node isScope = false) /\
  (getAttribute node "tabindex" = None ->
   isNaN (parseInt (getAttribute node "tabindex")) = true) /\
  (forall z, parseInt (getAttribute node "tabindex") = Some z ->
             getTabindex node isScope = tabIndex node).
Proof.
  unfold getTabindex, normalisesTabindex.
  destruct (tabIndex node <? 0) eqn:Eneg; cbn [andb].
  - apply Z.ltb_lt in Eneg.
    destruct ((isScope || isAudioVideoDetails (tagName node) || isContentEditable node) &&
              isNaN (parseInt (getAttribute node "tabindex"))) eqn:E.
    + repeat split; try (intros; lia || discriminate).
      * now intros ->.
      * intros z Hz. rewrite Hz in E. cbn in E. now rewrite andb_false_r in E.
    + repeat split; try reflexivity. now intros ->.
  - repeat split; try reflexivity. now intros ->.
Qed.

End Visibility.

Section Slots.

Context {dom : DOM}.

(** X19.  [tabbable] and [focusable] never return a slot element
    when shadow support is enabled: the iterative collector turns a slot
    into a scope over its assigned elements or its children and tests
    elements that are not slots only.  The flat collector returns a slot
    only if the slot carries a [contenteditable] attribute other than
    ["false"]: the [tabindex] clause of the candidate selector matches no
    slot, whatever its attributes. *)
Theorem slot_not_returned (fuel : nat) (el : Node) (options : Options)
    (l : list Node) (x : Node) :
  tabbable fuel el options = Some l \/ focusable fuel el options = Some l ->
  In x l ->
  (getShadowRootTruthy (getShadowRoot options) = true -> isSlot x = false) /\
  (isSlot x = true ->
   hasAttribute x "contenteditable" = true /\
   getAttribute x "contenteditable" <> Some "false") /\
  (forall y, isSlot y = true ->
     matchesSelector
       (Attr "tabindex" :& Not (Tag "slot") :& Not (Attr "inert")
          :& Not (Descendant (Attr "inert") Universal)) y = false) /\
  (forall fuel' elements includeContainer_ iterativeOptions candidates,
     getCandidatesIteratively fuel' elements includeContainer_ iterativeOptions
       = Some candidates ->
     Forall (fun y => isSlot y = false) (flat_map leaves candidates)).
Proof.
  intros Hl Hx.
  assert (H : matches x candidateSelector = true /\
              (getShadowRootTruthy (getShadowRoot options) = true -> isSlot x = false)).
  { destruct Hl as [Hl|Hl].
    - edestruct tabbable_In as (H1 & _ & H3); [exact Hl|exact Hx|]. now split.
    - edestruct focusable_In as (H1 & _ & H3); [exact Hl|exact Hx|]. now split. }
  destruct H as [Hm Hshadow].
  split; [exact Hshadow|]. split; [|split].
  - intros Hslot. pose proof (slot_candidate _ Hm Hslot) as Hce.
    cbn [matchesSelector] in Hce. apply andb_prop in Hce as [Hce1 Hce2].
    split; [exact Hce1|]. intros Heq. rewrite Heq in Hce2. discriminate.
  - intros y Hslot. cbn [matchesSelector]. change (toUpperCase "slot") with "SLOT".
    unfold isSlot in Hslot. rewrite Hslot. cbn [negb].
    now rewrite andb_false_r.
  - intros fuel' elements ic iopts candidates Hc.
    apply getCandidatesIteratively_loop_accepts in Hc.
    apply (Forall_impl _ (P := Accepted iopts)); [|exact Hc].
    now intros y (_ & _ & Hy).
Qed.

End Slots.

(** C7 as it was stated fails for a node with [visibility: hidden] and for
    a node under a closed details element. *)
Lemma isHidden_none_hidden :
  visibility (DOM := visibilityDom) 1 = "hidden" /\
  isHidden (dom := visibilityDom) 1 (withDisplayCheck "none") = true /\
  isHidden (dom := visibilityDom) 4 (withDisplayCheck "none") = true.
Proof. repeat split; vm_compute; reflexivity. Qed.

(** C7, amended, on the visible button of [visibilityDom]. *)
Lemma isHidden_none_witness :
  isHidden (dom := visibilityDom) 2 (withDisplayCheck "none") =
  hiddenRegardless (dom := visibilityDom) 2.
Proof. apply (@isHidden_none visibilityDom 2%nat (withDisplayCheck "none")). reflexivity. Defined.

(** C8 as it was stated fails under ['non-zero-area'] for the rendered
    button with [visibility: hidden], which is hidden and has a box; and
    under ['legacy-full'] for the button under a closed details element of
    a detached tree, which is hidden. *)
Lemma isHidden_modes_hidden_regardless :
  isHidden (dom := visibilityDom) 1 (withDisplayCheck "non-zero-area") = true /\
  isZeroArea (dom := visibilityDom) 1 = false /\
  isNodeAttached (dom := visibilityDom) 7 = false /\
  undisclosedShadow (dom := visibilityDom) 7 (withDisplayCheck "legacy-full") = None /\
  isHidden (dom := visibilityDom) 7 (withDisplayCheck "legacy-full") = true.
Proof. repeat split; vm_compute; reflexivity. Qed.

(** C8, amended, on the detached and the visible button of [visibilityDom]. *)
Lemma isHidden_display_modes_witness :
  isNodeAttached (dom := visibilityDom) 5 = false /\
  isHidden (dom := visibilityDom) 5 (withDisplayCheck "full") = true /\
  isHidden (dom := visibilityDom) 5 (withDisplayCheck "legacy-full") =
    hiddenRegardless (dom := visibilityDom) 5 /\
  isHidden (dom := visibilityDom) 2 (withDisplayCheck "non-zero-area") =
    hiddenRegardless (dom := visibilityDom) 2 || isZeroArea (dom := visibilityDom) 2.
Proof.
  destruct (@isHidden_display_modes visibilityDom 5%nat (withDisplayCheck "full"))
    as (Hfull & _ & _).
  destruct (@isHidden_display_modes visibilityDom 5%nat (withDisplayCheck "legacy-full"))
    as (_ & Hlegacy & _).
  destruct (@isHidden_display_modes visibilityDom 2%nat (withDisplayCheck "non-zero-area"))
    as (_ & _ & Harea).
  split; [vm_compute; reflexivity|].
  split; [apply Hfull; [right| |]; vm_compute; reflexivity|].
  split; [apply Hlegacy; vm_compute; reflexivity|].
  apply Harea. reflexivity.
Defined.

(** C9 as it was stated fails for a content editable element whose
    [tabindex] attribute was authored with a value that is no number: its
    tab index -1 is normalised to 0, and [isTabbable] holds of it.  An audio
    element without controls is normalised as well. *)
Lemma getTabindex_normalises_more :
  getAttribute (DOM := tabindexDom) 1 "tabindex" = Some "abc" /\
  tabIndex (DOM := tabindexDom) 1 = -1 /\
  getTabindex (dom := tabindexDom) 1 false = 0 /\
  isTabbable (dom := tabindexDom) (Some 1%nat) noOptions = Return true /\
  hasAttribute (dom := tabindexDom) 2 "controls" = false /\
  isContentEditable (DOM := tabindexDom) 2 = false /\
  tabIndex (DOM := tabindexDom) 2 = -1 /\
  getTabindex (dom := tabindexDom) 2 false = 0.
Proof. repeat split; vm_compute; reflexivity. Qed.

(** C10.  The code breaks the claim in the flat collector: the slot of
    [slotDom] bears [tabindex] and [contenteditable], the [contenteditable]
    clause of the candidate selector has no [:not(slot)], and both queries
    return the slot.  With shadow support on, over the same document, they
    return nothing. *)
Lemma contenteditable_slot_returned :
  isSlot (dom := slotDom) 2 = true /\
  getAttribute (DOM := slotDom) 2 "tabindex" = Some "0" /\
  tabbable (dom := slotDom) 10 1 (withDisplayCheck "none") = Some [2%nat] /\
  focusable (dom := slotDom) 10 1 (withDisplayCheck "none") = Some [2%nat] /\
  tabbable (dom := slotDom) 10 1 (withShadowAndDisplayCheck "none") = Some [] /\
  focusable (dom := slotDom) 10 1 (withShadowAndDisplayCheck "none") = Some [].
Proof. repeat split; vm_compute; reflexivity. Qed.

(** X19 on the slot of [slotDom], returned by the flat collector. *)
Lemma slot_not_returned_witness :
  hasAttribute (dom := slotDom) 2 "contenteditable" = true /\
  getAttribute (DOM := slotDom) 2 "contenteditable" <> Some "false".
Proof.
  destruct (@slot_not_returned slotDom 10%nat 1%nat (withDisplayCheck "none") [2%nat] 2%nat)
    as (_ & H & _).
  - left. vm_compute. reflexivity.
  - now left.
  - apply H. vm_compute. reflexivity.
Defined.

(** ** The termination measure on a document

    The height of [shadowDom] ranks it for the collector of [tabbable],
    which therefore returns on every list of its elements. *)
Lemma shadowDom_Ranked :
  Ranked (dom := shadowDom) (tabbableOptions (dom := shadowDom) withShadow)
         (height (DOM := shadowDom)).
Proof.
  split; [|split].
  - apply (height_children (DOM := shadowDom)).
  - intros n c Hc.
    change (In c (Table.assignedElements shadowTable n)) in Hc.
    unfold Table.assignedElements, Table.nodes in Hc.
    apply filter_In in Hc as [Hc Hslot]. apply in_seq in Hc.
    destruct (Table.assignedSlot shadowTable c) as [s|] eqn:Es; [|discriminate].
    apply Nat.eqb_eq in Hslot. subst s.
    pose proof (depth_assignedSlot (DOM := shadowDom) c Es) as Hd.
    change (n < c)%nat in Hd. change (7 - c < 7 - n)%nat.
    change (0 <= c < 7)%nat in Hc. lia.
  - intros n r c Hroot Hc. unfold shadowRootOf in Hroot.
    change (shadowRoot n) with (Table.shadowRoot shadowTable n) in Hroot.
    assert (Hhost : n = 2%nat /\ r = 3%nat).
    { destruct n as [|[|[|[|[|[|[|[|n]]]]]]]]; vm_compute in Hroot; try discriminate.
      injection Hroot as <-. now split. }
    destruct Hhost as [-> ->]. vm_compute in Hc.
    destruct Hc as [<-|[<-|[]]]; vm_compute; lia.
Qed.

Lemma shadowDom_collector_returns (elements : list Node) (includeContainer_ : bool) :
  exists fuel l,
    getCandidatesIteratively (dom := shadowDom) fuel elements includeContainer_
      (tabbableOptions (dom := shadowDom) withShadow) = Some l.
Proof. apply (getCandidatesIteratively_terminates _ _ shadowDom_Ranked). Qed.

(** C6 on the input of [fieldsetDom] that lies outside the legend. *)
Lemma disabled_fieldset_and_legend_witness :
  isNodeMatchingSelectorFocusable (dom := fieldsetDom) noOptions 5 = false /\
  isNodeMatchingSelectorTabbable (dom := fieldsetDom) noOptions 5 = false.
Proof.
  destruct (@disabled_fieldset_and_legend fieldsetDom 5%nat) as (_ & Hexcluded & _).
  apply (Hexcluded noOptions). vm_compute. reflexivity.
Defined.

(** C9, amended, on the content editable element of [tabindexDom]. *)
Lemma getTabindex_normalisation_witness :
  getTabindex (dom := tabindexDom) 1 false =
  (if normalisesTabindex (dom := tabindexDom) 1 false then 0
   else tabIndex (DOM := tabindexDom) 1).
Proof.
  destruct (@getTabindex_normalisation tabindexDom 1%nat false) as (Hvalue & _).
  exact Hvalue.
Defined.

(* ================================================================== *)
(** * Further properties of the code *)
(* ================================================================== *)

Section Further.

Context {dom : DOM}.

(** ** Tree facts *)

Lemma includes_In (l : list Node) (n : Node) : includes l n = true <-> In n l.
Proof.
  unfold includes. rewrite existsb_exists. split.
  - intros (x & Hx & Heq). apply Nat.eqb_eq in Heq. now subst.
  - intros H. exists n. split; [exact H|apply Nat.eqb_refl].
Qed.

Lemma ancestors_depth (k : nat) : forall n a,
  (depth n < k)%nat -> In a (ancestors n) -> (depth a < depth n)%nat.
Proof.
  induction k as [|k IH]; intros n a Hk; [lia|].
  rewrite ancestors_unfold. destruct (parentNode n) as [p|] eqn:Ep; [|intros []].
  pose proof (depth_parentNode _ Ep) as Hp.
  intros [<-|Ha]; [exact Hp|]. assert (depth p < k)%nat as Hk' by lia.
  specialize (IH p a Hk' Ha). lia.
Qed.

Lemma ancestors_trans (k : nat) : forall n a b,
  (depth n < k)%nat -> In a (ancestors n) -> In b (ancestors a) -> In b (ancestors n).
Proof.
  induction k as [|k IH]; intros n a b Hk; [lia|].
  rewrite (ancestors_unfold n). destruct (parentNode n) as [p|] eqn:Ep; [|intros []].
  pose proof (depth_parentNode _ Ep) as Hp.
  intros [<-|Ha] Hb; [now right|]. right. apply (IH p a b); [lia|exact Ha|exact Hb].
Qed.

Lemma descendantsFrom_height (fuel : nat) : forall n x,
  In x (descendantsFrom fuel n) -> (height x < height n)%nat.
Proof.
  induction fuel as [|fuel IH]; intros n x; cbn [descendantsFrom]; [intros []|].
  rewrite in_flat_map. intros (c & Hc & Hx).
  pose proof (height_children _ _ Hc) as Hh.
  destruct Hx as [<-|Hx]; [exact Hh|]. specialize (IH c x Hx). lia.
Qed.

Lemma container_not_descendant (el : Node) : ~ In el (descendants el).
Proof. intros H. apply descendantsFrom_height in H. lia. Qed.

Lemma isTabbable_true (x : Node) (options : Options) :
  isTabbable (Some x) options = Return true <->
  matches x candidateSelector = true /\ isNodeMatchingSelectorTabbable options x = true.
Proof.
  unfold isTabbable. destruct (matches x candidateSelector); cbn [negb].
  - split; [intros [= ->]; now split|now intros [_ ->]].
  - split; [discriminate|now intros [? _]].
Qed.

Lemma getCandidates_In_iff (el : Node) (includeContainer_ : bool)
    (filter_ : Node -> bool) (x : Node) :
  In x (getCandidates el includeContainer_ filter_) <->
  isInert (Some el) true = false /\ inContainer el includeContainer_ x /\
  matches x candidateSelector = true /\ filter_ x = true.
Proof.
  unfold getCandidates, inContainer, querySelectorAll.
  destruct (isInert (Some el) true); [split; [intros []|intros [? _]; discriminate]|].
  rewrite filter_In.
  destruct (includeContainer_ && matches el candidateSelector) eqn:E.
  - apply andb_prop in E as [-> Hel]. cbn [In]. rewrite filter_In. split.
    + intros [[<-|[Hd Hm]] Hf]; repeat split; auto.
    + intros (_ & [Hd|[_ ->]] & Hm & Hf); split; auto.
  - rewrite filter_In. split.
    + intros [[Hd Hm] Hf]. repeat split; auto.
    + intros (_ & [Hd|[-> ->]] & Hm & Hf); [split; auto|].
      rewrite Hm in E. discriminate.
Qed.

(** ** [isInert] *)

(** X1.  Without [lookUp], [isInert] looks at the node alone.  With
    [lookUp] it holds exactly when the node or one of its ancestors is
    inert, so it passes from every ancestor down to the node. *)
Theorem isInert_ancestors (n : Node) :
  isInert (Some n) false = inert n /\
  (isInert (Some n) true = true <-> exists a, In a (n :: ancestors n) /\ inert a = true) /\
  (forall a, In a (ancestors n) -> isInert (Some a) true = true ->
             isInert (Some n) true = true).
Proof.
  assert (Hiff : forall m, isInert (Some m) true = true <->
                 exists a, In a (m :: ancestors m) /\ inert a = true).
  { intros m. rewrite isInert_lookUp, orb_true_iff, existsb_exists. split.
    - intros [H|(a & Ha & H)]; [exists m|exists a]; split; auto; [now left|now right].
    - intros (a & [<-|Ha] & H); [now left|right; now exists a]. }
  split; [apply isInert_self|]. split; [apply Hiff|].
  intros a Ha Hinert. apply Hiff in Hinert as (b & Hb & Hinert). apply Hiff.
  exists b. split; [|exact Hinert]. right.
  destruct Hb as [<-|Hb]; [exact Ha|].
  apply (@ancestors_trans (S (depth n)) n a b); auto.
Qed.

(** ** The inert container *)

(** X2.  Over a container that is inert, [tabbable] and [focusable] return
    the empty list, also when the container is to be included.  The flat
    collector does so as well when an ancestor of the container is
    inert. *)
Theorem inert_container_returns_nothing (fuel : nat) (el : Node) (options : Options) :
  isInert (Some el) true = true ->
  getShadowRootTruthy (getShadowRoot options) = false \/
  (inert el = true /\ (2 <= fuel)%nat) ->
  tabbable fuel el options = Some [] /\ focusable fuel el options = Some [].
Proof.
  intros Hinert Hcase. unfold tabbable, focusable, getCandidates.
  destruct (getShadowRootTruthy (getShadowRoot options)) eqn:Eshadow.
  - destruct Hcase as [Hcase|[Hself Hfuel]]; [discriminate|].
    destruct fuel as [|[|fuel]]; try lia.
    unfold getCandidatesIteratively. cbn [getCandidatesIteratively_loop].
    rewrite isInert_self, Hself. split; reflexivity.
  - rewrite Hinert. split; reflexivity.
Qed.

(** ** The list queries and the node queries *)

(** X3.  Every element that [tabbable] returns is one for which
    [isTabbable] returns true, and every element that [focusable] returns
    is one for which [isFocusable] returns true, under the same
    options. *)
Theorem results_pass_node_queries (fuel : nat) (el : Node) (options : Options)
    (l : list Node) (x : Node) :
  In x l ->
  (tabbable fuel el options = Some l -> isTabbable (Some x) options = Return true) /\
  (focusable fuel el options = Some l -> isFocusable (Some x) options = Return true).
Proof.
  intros Hx. split; intros Hl.
  - edestruct tabbable_In as (Hm & Hf & _); [exact Hl|exact Hx|].
    apply isTabbable_true. now split.
  - edestruct focusable_In as (Hm & Hf & _); [exact Hl|exact Hx|].
    unfold isFocusable. rewrite (candidate_is_focusableCandidate _ Hm). cbn [negb].
    now rewrite Hf.
Qed.

(** X4.  Without shadow support, [tabbable] returns exactly the nodes for
    which [isTabbable] returns true among the descendants of the container,
    and the container itself on request, unless the container is inert or
    has an inert ancestor; [focusable] returns exactly those that match the
    candidate selector and pass the focusable classifier. *)
Theorem flat_collector_membership (fuel : nat) (el : Node) (options : Options) (x : Node) :
  getShadowRootTruthy (getShadowRoot options) = false ->
  (forall l, tabbable fuel el options = Some l ->
     (In x l <->
      isInert (Some el) true = false /\
      inContainer el (includeContainer options) x /\
      isTabbable (Some x) options = Return true)) /\
  (forall l, focusable fuel el options = Some l ->
     (In x l <->
      isInert (Some el) true = false /\
      inContainer el (includeContainer options) x /\
      matches x candidateSelector = true /\
      isNodeMatchingSelectorFocusable options x = true)).
Proof.
  intros Hflat. unfold tabbable, focusable. rewrite Hflat. split; intros l [= <-].
  - rewrite sortByOrder_elements, getCandidates_In_iff, isTabbable_true. reflexivity.
  - apply getCandidates_In_iff.
Qed.

End Further.

(** X2 on [inertDom]: the inner div, whose parent is inert, with the flat
    collector; the inert div itself with shadow support. *)
Lemma inert_container_returns_nothing_witness :
  (tabbable (dom := inertDom) 10 2 withContainer = Some [] /\
   focusable (dom := inertDom) 10 2 withContainer = Some []) /\
  (tabbable (dom := inertDom) 10 1 withShadow = Some [] /\
   focusable (dom := inertDom) 10 1 withShadow = Some []).
Proof.
  split.
  - apply (@inert_container_returns_nothing inertDom 10%nat 2%nat withContainer);
      [vm_compute; reflexivity|left; reflexivity].
  - apply (@inert_container_returns_nothing inertDom 10%nat 1%nat withShadow);
      [vm_compute; reflexivity|right; split; [vm_compute; reflexivity|lia]].
Defined.

(** X3 on the checked radio of [radiosDom]. *)
Lemma results_pass_node_queries_witness :
  isTabbable (dom := radiosDom) (Some 3%nat) noOptions = Return true /\
  isFocusable (dom := radiosDom) (Some 2%nat) noOptions = Return true.
Proof.
  destruct (@results_pass_node_queries radiosDom 10%nat 1%nat noOptions [3%nat] 3%nat)
    as (Htabbable & _); [now left|].
  destruct (@results_pass_node_queries radiosDom 10%nat 1%nat noOptions
              [2; 3; 4]%nat 2%nat) as (_ & Hfocusable); [now left|].
  split; [apply Htabbable|apply Hfocusable]; vm_compute; reflexivity.
Defined.

(** X4 on [radiosDom]: the first radio is no result of [tabbable], for
    [isTabbable] does not hold of it. *)
Lemma flat_collector_membership_witness :
  (In 2%nat [3%nat] <->
   isInert (dom := radiosDom) (Some 1%nat) true = false /\
   inContainer (dom := radiosDom) 1 false 2 /\
   isTabbable (dom := radiosDom) (Some 2%nat) noOptions = Return true) /\
  isTabbable (dom := radiosDom) (Some 2%nat) noOptions = Return false.
Proof.
  split; [|vm_compute; reflexivity].
  destruct (@flat_collector_membership radiosDom 10%nat 1%nat noOptions 2%nat) as (H & _);
    [reflexivity|].
  apply (H [3%nat]). vm_compute. reflexivity.
Defined.

Section FurtherSorting.

Context {dom : DOM}.

(** ** The sorter keeps every element *)

Lemma positioned_filter_snd (test : Candidate -> bool) (candidates : list Candidate) :
  forall i,
  map snd (filter (fun ic => test (snd ic)) (positioned i candidates)) =
  filter test candidates.
Proof.
  unfold positioned. induction candidates as [|c l IH]; intros i; [reflexivity|].
  cbn [List.length seq combine filter snd]. destruct (test c); cbn [map snd]; now rewrite IH.
Qed.

Lemma flat_map_split_Permutation (A : Type) (f : A -> list Node) (test : A -> bool)
    (l : list A) :
  Permutation (flat_map f (filter (fun a => negb (test a)) l) ++ flat_map f (filter test l))
              (flat_map f l).
Proof.
  induction l as [|a l IH]; [constructor|].
  cbn [filter flat_map]. destruct (test a); cbn [negb flat_map].
  - rewrite <- IH. rewrite !app_assoc. apply Permutation_app_tail, Permutation_app_comm.
  - rewrite <- app_assoc. now apply Permutation_app_head.
Qed.

Lemma flat_map_pointwise_Permutation (A : Type) (f g : A -> list Node) (l : list A) :
  Forall (fun a => Permutation (f a) (g a)) l ->
  Permutation (flat_map f l) (flat_map g l).
Proof.
  induction 1 as [|a l Ha _ IH]; [constructor|]. cbn [flat_map]. now apply Permutation_app.
Qed.

Lemma sortWith_Permutation (elems : Candidate -> list Node) (candidates : list Candidate) :
  Permutation (sortWith elems candidates) (flat_map elems candidates).
Proof.
  destruct (sortWith_spec elems candidates) as (ordered & Hperm & _ & ->).
  rewrite <- (flat_map_split_Permutation elems (fun c => candidateTabindex c =? 0) candidates).
  apply Permutation_app_tail.
  rewrite <- (positioned_filter_snd (fun c => negb (candidateTabindex c =? 0)) candidates 0).
  rewrite (flat_map_concat_map elems), map_map, <- flat_map_concat_map.
  apply Permutation_flat_map. exact Hperm.
Qed.

Lemma flat_map_Element (f : Candidate -> list Node) (l : list Node) :
  (forall e, f (Element e) = [e]) -> flat_map f (map Element l) = l.
Proof.
  intros Hf. induction l as [|x l IH]; [reflexivity|].
  cbn [map flat_map]. now rewrite Hf, IH.
Qed.

Lemma sortWith_zero (elems : Candidate -> list Node) (candidates : list Candidate) :
  forallb (fun c => candidateTabindex c =? 0) candidates = true ->
  sortWith elems candidates = flat_map elems candidates.
Proof.
  intros Hzero. unfold sortWith. rewrite partitionTabbables_spec.
  rewrite (forallb_filter_id _ _ Hzero).
  replace (filter _ (positioned 0 candidates)) with (@nil (nat * Candidate)); [reflexivity|].
  symmetry. generalize 0%nat. unfold positioned.
  induction candidates as [|c l IH]; intros i; [reflexivity|].
  cbn [forallb] in Hzero. apply andb_prop in Hzero as [Hc Hl].
  cbn [List.length seq combine filter snd]. rewrite Hc. cbn [negb]. now apply IH.
Qed.

(** X5.  [sortByOrder] returns the elements of its candidates, those inside
    scopes included, each as often as it occurs: it reorders, and neither
    drops nor repeats an element. *)
Theorem sortByOrder_Permutation (candidates : list Candidate) :
  Permutation (sortByOrder candidates) (flat_map leaves candidates) /\
  List.length (sortByOrder candidates) = List.length (flat_map leaves candidates).
Proof.
  assert (Hitem : forall item, Permutation (elementsOf item) (leaves item)).
  { induction item as [e|p inner IH] using Candidate_induction; [reflexivity|].
    cbn [elementsOf leaves]. rewrite sortWith_Permutation.
    now apply flat_map_pointwise_Permutation. }
  assert (Hperm : Permutation (sortByOrder candidates) (flat_map leaves candidates)).
  { unfold sortByOrder. rewrite sortWith_Permutation.
    apply flat_map_pointwise_Permutation. apply Forall_forall. intros c _. apply Hitem. }
  split; [exact Hperm|now apply Permutation_length].
Qed.

(** X6.  When every item, at every depth of scope, has the tab index 0,
    [sortByOrder] returns the elements in the order of the candidate list:
    document order. *)
Theorem sortByOrder_document_order (candidates : list Candidate) :
  forallb allTabindexZero candidates = true ->
  sortByOrder candidates = flat_map leaves candidates.
Proof.
  assert (Hzero : forall item, allTabindexZero item = true ->
                  (candidateTabindex item =? 0) = true).
  { intros [e|p inner]; cbn [allTabindexZero candidateTabindex]; [trivial|].
    intros H. now apply andb_prop in H. }
  assert (Hlist : forall l, forallb allTabindexZero l = true ->
                  forallb (fun c => candidateTabindex c =? 0) l = true).
  { induction l as [|c l IH]; [trivial|]. cbn [forallb]. intros H.
    apply andb_prop in H as [Hc Hl]. now rewrite (Hzero c Hc), (IH Hl). }
  assert (Hmap : forall l, Forall (fun c => allTabindexZero c = true ->
                                  elementsOf c = leaves c) l ->
                 forallb allTabindexZero l = true ->
                 flat_map elementsOf l = flat_map leaves l).
  { induction 1 as [|c l Hc _ IH]; [trivial|]. cbn [forallb flat_map]. intros H.
    apply andb_prop in H as [H1 H2]. now rewrite (Hc H1), (IH H2). }
  assert (Hitem : forall item, allTabindexZero item = true -> elementsOf item = leaves item).
  { induction item as [e|p inner IH] using Candidate_induction; [reflexivity|].
    cbn [allTabindexZero elementsOf leaves]. intros H. apply andb_prop in H as [_ H].
    rewrite (sortWith_zero _ _ (Hlist _ H)). now apply Hmap. }
  intros H. unfold sortByOrder. rewrite (sortWith_zero _ _ (Hlist _ H)).
  apply Hmap; [|exact H]. apply Forall_forall. intros c _. apply Hitem.
Qed.

Lemma tabbable_classifier_split (options : Options) (x : Node) :
  isNodeMatchingSelectorTabbable options x =
  isNodeMatchingSelectorFocusable options x && tabbableAmongFocusable x.
Proof.
  unfold isNodeMatchingSelectorTabbable, tabbableAmongFocusable.
  rewrite Z.ltb_antisym.
  now destruct (isNonTabbableRadio x), (0 <=? getTabindex x false),
    (isNodeMatchingSelectorFocusable options x).
Qed.

Lemma filter_filter (A : Type) (f g : A -> bool) (l : list A) :
  filter g (filter f l) = filter (fun a => f a && g a) l.
Proof.
  induction l as [|a l IH]; [reflexivity|]. cbn [filter].
  destruct (f a); cbn [filter andb]; [destruct (g a)|]; now rewrite IH.
Qed.

Lemma getCandidates_tabbable_of_focusable (el : Node) (includeContainer_ : bool)
    (options : Options) :
  getCandidates el includeContainer_ (isNodeMatchingSelectorTabbable options) =
  filter tabbableAmongFocusable
         (getCandidates el includeContainer_ (isNodeMatchingSelectorFocusable options)).
Proof.
  unfold getCandidates. destruct (isInert (Some el) true); [reflexivity|].
  rewrite filter_filter. apply filter_ext. intros x. apply tabbable_classifier_split.
Qed.

(** X7.  Without shadow support, [tabbable] returns the elements that
    [focusable] returns, less the non-tabbable radios and the elements of
    negative tab index, in tab order; when all that remain have the tab
    index 0, it returns them in the order in which [focusable] does. *)
Theorem flat_tabbable_among_focusable (fuel : nat) (el : Node) (options : Options)
    (tabbables focusables : list Node) :
  getShadowRootTruthy (getShadowRoot options) = false ->
  tabbable fuel el options = Some tabbables ->
  focusable fuel el options = Some focusables ->
  Permutation tabbables (filter tabbableAmongFocusable focusables) /\
  (Forall (fun x => getTabindex x false = 0) (filter tabbableAmongFocusable focusables) ->
   tabbables = filter tabbableAmongFocusable focusables).
Proof.
  intros Hflat. unfold tabbable, focusable. rewrite Hflat.
  intros [= <-] [= <-]. rewrite getCandidates_tabbable_of_focusable.
  set (l := filter tabbableAmongFocusable _). unfold sortByOrder. split.
  - rewrite sortWith_Permutation. now rewrite flat_map_Element.
  - intros Hzero. rewrite sortWith_zero; [now rewrite flat_map_Element|].
    clear -Hzero. induction Hzero as [|x l' Hx _ IH]; [reflexivity|].
    cbn [map forallb candidateTabindex]. now rewrite Hx, IH.
Qed.

End FurtherSorting.

(** X6 on candidates of [shadowDom]: the button of the light tree, and the
    scope of the host with it. *)
Lemma sortByOrder_document_order_witness :
  sortByOrder (dom := shadowDom) [Element 6; CandidateScope 2 [Element 6]] = [6; 6]%nat.
Proof.
  apply (@sortByOrder_document_order shadowDom [Element 6; CandidateScope 2 [Element 6]]).
  vm_compute. reflexivity.
Defined.

(** X7 on [detailsDom]: the button of tab index 2 comes first in
    [tabbable] and second in [focusable]. *)
Lemma flat_tabbable_among_focusable_witness :
  Permutation [5; 3; 6]%nat
    (filter (tabbableAmongFocusable (dom := detailsDom)) [3; 5; 6]%nat).
Proof.
  destruct (@flat_tabbable_among_focusable detailsDom 10%nat 1%nat noOptions
              [5; 3; 6]%nat [3; 5; 6]%nat) as (H & _); try (vm_compute; reflexivity).
  exact H.
Defined.

Section FurtherAttachment.

Context {dom : DOM}.

(** ** [isNodeAttached] *)

Lemma hostsFrom_fuel (f1 : nat) : forall f2 n,
  (depth n <= f1)%nat -> (depth n <= f2)%nat -> hostsFrom f1 n = hostsFrom f2 n.
Proof.
  induction f1 as [|f1 IH]; intros [|f2] n H1 H2; cbn [hostsFrom]; try reflexivity;
    destruct (host (getRootNode n)) as [h|] eqn:Eh; try reflexivity;
    pose proof (depth_rootHost _ Eh); try lia.
  f_equal. apply IH; lia.
Qed.

Lemma shadowHosts_unfold (n : Node) :
  shadowHosts n = match host (getRootNode n) with
                  | Some h => h :: shadowHosts h
                  | None => []
                  end.
Proof.
  unfold shadowHosts. destruct (host (getRootNode n)) as [h|] eqn:Eh.
  - pose proof (depth_rootHost _ Eh).
    destruct (depth n) as [|d] eqn:Ed; [lia|]. cbn [hostsFrom]. rewrite Eh. f_equal.
    apply hostsFrom_fuel; lia.
  - destruct (depth n); cbn [hostsFrom]; now rewrite ?Eh.
Qed.

Lemma isNodeAttached_loop_hosts (fuel : nat) : forall attached h,
  (depth h <= fuel)%nat ->
  isNodeAttached_loop fuel attached (Some h) =
  attached || existsb (fun m => inOwnerDocument (Some m)) (shadowHosts h).
Proof.
  induction fuel as [|fuel IH]; intros attached h Hfuel; cbn [isNodeAttached_loop];
    (destruct attached; [reflexivity|]); cbn [orb]; rewrite shadowHosts_unfold;
    destruct (host (getRootNode h)) as [h'|] eqn:Eh;
    try (pose proof (depth_rootHost _ Eh)); try lia; try reflexivity.
  - cbn [existsb]. apply IH. lia.
  - now destruct fuel.
Qed.

(** X8.  A node is attached exactly when it is not its own root and it, or
    one of the shadow hosts above it, is contained in its owner document.
    So a node without a parent is never attached, and a node of a shadow
    tree is attached when the host of the tree is. *)
Theorem isNodeAttached_hosts (n : Node) :
  isNodeAttached n =
    negb (same_node (getRootNode n) n) &&
    existsb (fun m => inOwnerDocument (Some m)) (n :: shadowHosts n) /\
  (parentNode n = None -> isNodeAttached n = false) /\
  (forall h, host (getRootNode n) = Some h -> same_node (getRootNode n) n = false ->
             isNodeAttached h = true -> isNodeAttached n = true).
Proof.
  assert (Heq : forall m, isNodeAttached m =
            negb (same_node (getRootNode m) m) &&
            existsb (fun x => inOwnerDocument (Some x)) (m :: shadowHosts m)).
  { intros m. unfold isNodeAttached.
    destruct (negb (same_node (getRootNode m) m)); [|reflexivity].
    cbn [andb existsb]. rewrite shadowHosts_unfold.
    destruct (host (getRootNode m)) as [h|] eqn:Eh.
    - pose proof (depth_rootHost _ Eh).
      rewrite isNodeAttached_loop_hosts by lia. cbn [existsb].
      now destruct (inOwnerDocument (Some h)), (inOwnerDocument (Some m)).
    - cbn [existsb inOwnerDocument orb]. rewrite orb_false_r. now destruct (depth m). }
  split; [apply Heq|]. split.
  - intros Hparent. rewrite Heq, getRootNode_unfold, Hparent.
    unfold same_node. now rewrite Nat.eqb_refl.
  - intros h Hhost Hroot Hattached. rewrite Heq in Hattached |- *.
    rewrite Hroot. cbn [negb andb]. apply andb_prop in Hattached as [_ Hattached].
    rewrite shadowHosts_unfold, Hhost. cbn [existsb] in Hattached |- *.
    rewrite Hattached. apply orb_true_r.
Qed.

(** ** [isHidden] and the shadow option *)

Lemma undisclosedShadowWalk_none (getShadowRoot_ : Node -> ShadowRootResult) (fuel : nat) :
  (forall p, getShadowRoot_ p <> SR_true) ->
  forall node, undisclosedShadowWalk fuel getShadowRoot_ node = None.
Proof.
  intros Hnever.
  assert (Htest : forall n,
            match parentElement n with
            | Some p => negb (truthy (shadowRoot p)) &&
                        match getShadowRoot_ p with SR_true => true | _ => false end
            | None => false
            end = false).
  { intros n. destruct (parentElement n) as [p|]; [|reflexivity].
    specialize (Hnever p). destruct (getShadowRoot_ p); try apply andb_false_r.
    now destruct Hnever. }
  induction fuel as [|fuel IH]; intros [n|]; cbn [undisclosedShadowWalk];
    try reflexivity; rewrite Htest; [reflexivity|].
  destruct (assignedSlot n); [apply IH|]. destruct (_ && _); apply IH.
Qed.

(** X9.  [isHidden] uses [getShadowRoot] only to look for an undisclosed
    shadow above the node.  When [getShadowRoot] is no function, or is a
    function that returns [true] for no element, there is none, and
    [isHidden] answers as it does with shadow support switched off. *)
Theorem isHidden_without_undisclosed_shadow (node : Node) (options : Options) :
  (forall f p, getShadowRoot options = GSR_function f -> f p <> SR_true) ->
  undisclosedShadow node options = None /\
  isHidden node options = isHidden node (withoutShadow options).
Proof.
  intros Hnever.
  assert (Hwalk : undisclosedShadow node options = None).
  { unfold undisclosedShadow. destruct (getShadowRoot options) as [| |f] eqn:E;
      try reflexivity.
    apply undisclosedShadowWalk_none. intros p. now apply Hnever. }
  split; [exact Hwalk|]. unfold isHidden. rewrite Hwalk. reflexivity.
Qed.

(** X10.  Under [displayCheck] unset, ['full'] or ['legacy-full'], a node
    that is attached, with no undisclosed shadow above it, is hidden exactly
    when it has no client rect, its visibility is [hidden], or it lies
    under a closed details element.  A node whose parent has an undisclosed
    shadow, one that [getShadowRoot] answers with [true], is tested by its
    bounding box instead. *)
Theorem isHidden_rendering (node : Node) (options : Options) :
  checksRendering options = true ->
  (undisclosedShadow node options = None -> isNodeAttached node = true ->
   isHidden node options = hiddenRegardless node || Nat.eqb (clientRects node) 0) /\
  (forall f p,
     getShadowRoot options = GSR_function f ->
     parentElement node = Some p -> shadowRoot p = None -> f p = SR_true ->
     isHidden node options = hiddenRegardless node || isZeroArea node).
Proof.
  unfold checksRendering, isHidden, hiddenRegardless. intros ->.
  destruct (visibility node =? "hidden")%string; [now split|].
  destruct (underClosedDetails node); [now split|]. cbn [orb]. split.
  - now intros -> ->.
  - intros f p Hf Hp Hroot Htrue. unfold undisclosedShadow. rewrite Hf.
    destruct (depth node); cbn [undisclosedShadowWalk]; now rewrite Hp, Hroot, Htrue.
Qed.

End FurtherAttachment.

(** X9 on the last button of [detailsDom], with a [getShadowRoot] that
    finds no shadow root. *)
Lemma isHidden_without_undisclosed_shadow_witness :
  undisclosedShadow (dom := detailsDom) 6 (withGetShadowRoot noShadowRoot) = None /\
  isHidden (dom := detailsDom) 6 (withGetShadowRoot noShadowRoot) =
  isHidden (dom := detailsDom) 6 (withoutShadow (withGetShadowRoot noShadowRoot)).
Proof.
  apply (@isHidden_without_undisclosed_shadow detailsDom 6%nat
           (withGetShadowRoot noShadowRoot)).
  intros f p [= <-]. discriminate.
Defined.

(** X10 on the last button of [detailsDom]: attached and rendered; and
    under a parent that is reported to have an undisclosed shadow. *)
Lemma isHidden_rendering_witness :
  isHidden (dom := detailsDom) 6 noOptions =
    hiddenRegardless (dom := detailsDom) 6 ||
    Nat.eqb (clientRects (DOM := detailsDom) 6) 0 /\
  isHidden (dom := detailsDom) 6 (withGetShadowRoot undisclosedShadowRoot) =
    hiddenRegardless (dom := detailsDom) 6 || isZeroArea (dom := detailsDom) 6.
Proof.
  destruct (@isHidden_rendering detailsDom 6%nat noOptions eq_refl) as (Hattached & _).
  destruct (@isHidden_rendering detailsDom 6%nat (withGetShadowRoot undisclosedShadowRoot)
              eq_refl) as (_ & Hundisclosed).
  split.
  - apply Hattached; vm_compute; reflexivity.
  - apply (Hundisclosed undisclosedShadowRoot 1%nat); reflexivity.
Defined.

Section FurtherQueries.

Context {dom : DOM}.

(** ** Iframes *)

Lemma iframe_no_candidate (n : Node) :
  tagName n = "IFRAME" ->
  getAttribute n "tabindex" = None ->
  getAttribute n "contenteditable" = None ->
  matches n candidateSelector = false.
Proof.
  intros Htag Htabindex Heditable.
  unfold matches, candidateSelector, candidateSelectors.
  cbn [existsb matchesSelector]. unfold hasAttribute.
  rewrite Htag, Htabindex, Heditable. reflexivity.
Qed.

(** X11.  An iframe without [tabindex] and [contenteditable] attributes is
    a candidate for [isFocusable] alone: [isTabbable] returns false for it
    and neither [tabbable] nor [focusable] returns it, while [isFocusable]
    returns what the focusable classifier says, unless an ancestor has the
    [inert] attribute. *)
Theorem iframe_focusable_not_listed (n : Node) (options : Options) :
  tagName n = "IFRAME" ->
  getAttribute n "tabindex" = None ->
  getAttribute n "contenteditable" = None ->
  isTabbable (Some n) options = Return false /\
  (existsb (fun a => hasAttribute a "inert") (elementAncestors n) = false ->
   isFocusable (Some n) options = Return (isNodeMatchingSelectorFocusable options n)) /\
  (forall fuel el l,
     tabbable fuel el options = Some l \/ focusable fuel el options = Some l ->
     ~ In n l).
Proof.
  intros Htag Htabindex Heditable.
  pose proof (iframe_no_candidate n Htag Htabindex Heditable) as Hno.
  split; [|split].
  - unfold isTabbable. now rewrite Hno.
  - intros Hinert. unfold isFocusable.
    replace (matches n focusableCandidateSelector) with true; [reflexivity|].
    unfold matches, focusableCandidateSelector. rewrite existsb_app.
    change (existsb (fun s => matchesSelector s n) candidateSelectors)
      with (matches n candidateSelector).
    rewrite Hno.
    cbn [existsb matchesSelector orb]. now rewrite Htag, Hinert.
  - intros fuel el l [Hl|Hl] Hn.
    + edestruct tabbable_In as (Hm & _); [exact Hl|exact Hn|]. congruence.
    + edestruct focusable_In as (Hm & _); [exact Hl|exact Hn|]. congruence.
Qed.

(** ** The scopes of the collector *)

Lemma scopesSatisfy_scope_or_flat (test : Node -> bool) (flatten : bool) (e : Node)
    (nested : list Candidate) :
  test e = true ->
  forallb (scopesSatisfy test) nested = true ->
  forallb (scopesSatisfy test) (if flatten then nested else [CandidateScope e nested]) = true.
Proof.
  intros He Hnested. destruct flatten; [exact Hnested|].
  cbn [forallb scopesSatisfy]. now rewrite He, Hnested.
Qed.

Lemma getCandidatesIteratively_loop_scopes (options : IterativeOptions)
    (test : Node -> bool) (fuel : nat) :
  (forall e, isSlot e = true -> test e = true) ->
  (forall e shadowRootFilter, iter_shadowRootFilter options = Some shadowRootFilter ->
                              shadowRootFilter e = true -> test e = true) ->
  (iter_shadowRootFilter options = None -> forall e, test e = true) ->
  forall elements includeContainer_ elementsToCheck l,
  getCandidatesIteratively_loop fuel elements includeContainer_ options elementsToCheck
    = Some l ->
  forallb (scopesSatisfy test) l = true.
Proof.
  intros Hslot Hfilter Hnone.
  induction fuel as [|fuel IH]; intros elements ic queue l;
    cbn [getCandidatesIteratively_loop]; [discriminate|].
  destruct queue as [|element rest]; [now intros [= <-]|].
  destruct (isInert (Some element) false); [apply IH|].
  destruct (isSlot element) eqn:Eslot.
  - destruct (getCandidatesIteratively_loop fuel _ true options _) as [nested|] eqn:E1;
      [|discriminate].
    destruct (getCandidatesIteratively_loop fuel elements ic options rest) as [later|] eqn:E2;
      [|discriminate].
    intros [= <-]. rewrite forallb_app, (IH _ _ _ _ E2), andb_true_r.
    apply scopesSatisfy_scope_or_flat; [now apply Hslot|apply (IH _ _ _ _ E1)].
  - match goal with
    | |- context [if ?c then [Element ?e] else []] =>
        set (own := if c then [Element e] else [])
    end.
    assert (Hown : forallb (scopesSatisfy test) own = true).
    { subst own. now destruct (_ && _ && _). }
    destruct (shadowRootTruthy (shadowRootOf options element) && _) eqn:Eshadow.
    + destruct (getCandidatesIteratively_loop fuel _ true options _) as [nested|] eqn:E1;
        [|discriminate].
      destruct (getCandidatesIteratively_loop fuel elements ic options rest)
        as [later|] eqn:E2; [|discriminate].
      intros [= <-]. rewrite !forallb_app, Hown, (IH _ _ _ _ E2), andb_true_r.
      cbn [andb]. apply scopesSatisfy_scope_or_flat; [|apply (IH _ _ _ _ E1)].
      apply andb_prop in Eshadow as [_ Eshadow]. apply andb_prop in Eshadow as [_ Eshadow].
      destruct (iter_shadowRootFilter options) as [shadowRootFilter|] eqn:Ef.
      * now apply (Hfilter element shadowRootFilter).
      * now apply Hnone.
    + destruct (getCandidatesIteratively_loop fuel elements ic options _)
        as [later|] eqn:E2; [|discriminate].
      intros [= <-]. now rewrite forallb_app, Hown, (IH _ _ _ _ E2).
Qed.

(** X12.  Every scope that the collector of [tabbable] returns, at every
    depth, is the scope of a slot or of a shadow host that passes
    [isValidShadowRootTabbable]; and such a host, whose [tabIndex] reflects
    the integer of its [tabindex] attribute, is filed by [sortByOrder] under
    a tab index of at least 0. *)
Theorem tabbable_scopes (fuel : nat) (elements : list Node) (includeContainer_ : bool)
    (options : Options) (candidates : list Candidate) :
  getCandidatesIteratively fuel elements includeContainer_ (tabbableOptions options)
    = Some candidates ->
  forallb (scopesSatisfy (fun p => isSlot p || isValidShadowRootTabbable p)) candidates
    = true /\
  (forall p inner,
     isValidShadowRootTabbable p = true ->
     (forall t, parseInt (getAttribute p "tabindex") = Some t -> tabIndex p = t) ->
     0 <= candidateTabindex (CandidateScope p inner)).
Proof.
  intros Hcandidates. split.
  - refine (@getCandidatesIteratively_loop_scopes (tabbableOptions options)
              (fun p => isSlot p || isValidShadowRootTabbable p) fuel _ _ _
              elements includeContainer_ elements candidates Hcandidates).
    + now intros e ->.
    + intros e f [= <-] ->. apply orb_true_r.
    + discriminate.
  - intros p inner Hvalid Hreflects. cbn [candidateTabindex].
    unfold getTabindex, isValidShadowRootTabbable in *.
    destruct (tabIndex p <? 0) eqn:Eneg; [|apply Z.ltb_ge in Eneg; lia].
    apply Z.ltb_lt in Eneg. cbn [orb andb].
    destruct (parseInt (getAttribute p "tabindex")) as [t|]; cbn [isNaN]; [|lia].
    specialize (Hreflects t eq_refl).
    destruct (t >=? 0) eqn:Et; [|discriminate]. apply Z.geb_le in Et. lia.
Qed.

(** ** Termination of the queries *)

(** X13.  In a ranked DOM [tabbable] and [focusable] return: from some
    amount of fuel on, each returns a list, the same for every larger
    amount. *)
Theorem queries_return (rank : Node -> nat) (el : Node) (options : Options) :
  Ranked (tabbableOptions options) rank ->
  exists fuel tabbables focusables,
    forall fuel', (fuel <= fuel')%nat ->
      tabbable fuel' el options = Some tabbables /\
      focusable fuel' el options = Some focusables.
Proof.
  intros Hranked.
  assert (Hranked' : Ranked (focusableOptions options) rank) by exact Hranked.
  destruct (getCandidatesIteratively_terminates [el] (includeContainer options) Hranked)
    as (f1 & l1 & E1).
  destruct (getCandidatesIteratively_terminates [el] (includeContainer options) Hranked')
    as (f2 & l2 & E2).
  unfold tabbable, focusable.
  destruct (getShadowRootTruthy (getShadowRoot options)).
  - exists (Nat.max f1 f2), (sortByOrder l1), (flatElements l2). intros fuel' Hfuel.
    unfold getCandidatesIteratively in *.
    rewrite (@getCandidatesIteratively_loop_fuel dom _ f1 fuel' _ _ _ l1) by (lia || exact E1).
    rewrite (@getCandidatesIteratively_loop_fuel dom _ f2 fuel' _ _ _ l2) by (lia || exact E2).
    split; reflexivity.
  - exists O. eexists. eexists. intros fuel' _. split; reflexivity.
Qed.

(** ** Closed details elements *)

Lemma underClosedDetails_ancestors (node : Node) :
  underClosedDetails node =
  existsb isClosedDetails (elementAncestors (nodeUnderDetails node)).
Proof.
  unfold underClosedDetails, matches. cbn [existsb matchesSelector].
  now rewrite orb_false_r.
Qed.

(** X14.  A details element without the [open] attribute hides what lies
    under it, whatever the options: every node with such an element among
    its ancestors is hidden, and neither [isTabbable] nor [isFocusable]
    holds of it.  The first summary of a details element is the exception:
    it is hidden by the closed details elements above its own details
    element, and not by that one. *)
Theorem closed_details_hide (node : Node) (options : Options) :
  (isDirectSummary node = false ->
   forall details, In details (elementAncestors node) -> isClosedDetails details = true ->
     isHidden node options = true /\
     isTabbable (Some node) options = Return false /\
     isFocusable (Some node) options = Return false) /\
  (isDirectSummary node = true ->
   exists details,
     parentElement node = Some details /\ tagName details = "DETAILS" /\
     underClosedDetails node = existsb isClosedDetails (elementAncestors details)).
Proof.
  split.
  - intros Hsummary details Hin Hclosed.
    assert (Hhidden : isHidden node options = true).
    { apply isHidden_regardless. unfold hiddenRegardless.
      rewrite underClosedDetails_ancestors. unfold nodeUnderDetails. rewrite Hsummary.
      replace (existsb isClosedDetails (elementAncestors node)) with true;
        [apply orb_true_r|].
      symmetry. apply existsb_exists. now exists details. }
    assert (Hfocusable : isNodeMatchingSelectorFocusable options node = false).
    { unfold isNodeMatchingSelectorFocusable. rewrite Hhidden.
      now destruct (disabled node), (isInert (Some node) false), (isHiddenInput node). }
    split; [exact Hhidden|]. split.
    + unfold isTabbable. destruct (negb (matches node candidateSelector)); [reflexivity|].
      unfold isNodeMatchingSelectorTabbable. rewrite Hfocusable.
      cbn [negb]. now rewrite orb_true_r.
    + unfold isFocusable. destruct (negb (matches node focusableCandidateSelector));
        [reflexivity|]. now rewrite Hfocusable.
  - intros Hsummary. destruct (isDirectSummary_parent _ Hsummary) as (details & Hp & Ht & Hu).
    exists details. repeat split; [exact Hp|exact Ht|].
    now rewrite underClosedDetails_ancestors, Hu.
Qed.

(** ** The comparator of the sorter *)

(** X15.  [sortOrderedTabbables] is a consistent comparator: exchanging the
    arguments negates the result, the results compose, and the result is 0
    only for equal tab index and document order.  So the array that
    [sort] returns does not depend on the algorithm of the engine. *)
Theorem sortOrderedTabbables_consistent (a b c : Sortable.t) :
  sortOrderedTabbables a b = - sortOrderedTabbables b a /\
  (sortOrderedTabbables a b <= 0 -> sortOrderedTabbables b c <= 0 ->
   sortOrderedTabbables a c <= 0) /\
  (sortOrderedTabbables a b = 0 <->
   Sortable.tabIndex a = Sortable.tabIndex b /\
   Sortable.documentOrder a = Sortable.documentOrder b).
Proof.
  unfold sortOrderedTabbables.
  destruct (Z.eqb_spec (Sortable.tabIndex a) (Sortable.tabIndex b)),
           (Z.eqb_spec (Sortable.tabIndex b) (Sortable.tabIndex a)),
           (Z.eqb_spec (Sortable.tabIndex b) (Sortable.tabIndex c)),
           (Z.eqb_spec (Sortable.tabIndex a) (Sortable.tabIndex c)); lia.
Qed.

End FurtherQueries.

(** X11 on the iframe of [iframeDom]. *)
Lemma iframe_focusable_not_listed_witness :
  isTabbable (dom := iframeDom) (Some 2%nat) noOptions = Return false /\
  isFocusable (dom := iframeDom) (Some 2%nat) noOptions =
    Return (isNodeMatchingSelectorFocusable (dom := iframeDom) noOptions 2) /\
  isNodeMatchingSelectorFocusable (dom := iframeDom) noOptions 2 = true /\
  focusable (dom := iframeDom) 10 1 noOptions = Some [].
Proof.
  destruct (@iframe_focusable_not_listed iframeDom 2%nat noOptions)
    as (Htabbable & Hfocusable & _); try reflexivity.
  split; [exact Htabbable|]. split; [|split; vm_compute; reflexivity].
  apply Hfocusable. vm_compute. reflexivity.
Defined.

(** X12 on [shadowDom]: the scope of the host, and in it the scope of the
    slot. *)
Lemma tabbable_scopes_witness :
  forallb (scopesSatisfy (fun p => isSlot (dom := shadowDom) p ||
                                   isValidShadowRootTabbable (dom := shadowDom) p))
          [CandidateScope 2 [Element 4; CandidateScope 5 [Element 6]]] = true.
Proof.
  destruct (@tabbable_scopes shadowDom 10%nat [1%nat] false withShadow
              [CandidateScope 2 [Element 4; CandidateScope 5 [Element 6]]]) as (Hscopes & _).
  - vm_compute. reflexivity.
  - exact Hscopes.
Defined.

(** X13 on [shadowDom], which its height ranks. *)
Lemma queries_return_witness :
  exists fuel tabbables focusables,
    forall fuel', (fuel <= fuel')%nat ->
      tabbable (dom := shadowDom) fuel' 1 withShadow = Some tabbables /\
      focusable (dom := shadowDom) fuel' 1 withShadow = Some focusables.
Proof.
  apply (@queries_return shadowDom (height (DOM := shadowDom)) 1%nat withShadow).
  exact shadowDom_Ranked.
Defined.

Section FurtherCollector.

Context {dom : DOM}.

(** ** The container *)

Lemma getCandidatesIteratively_loop_rank (options : IterativeOptions) (rank : Node -> nat)
    (fuel : nat) :
  Ranked options rank ->
  forall k elements includeContainer_ elementsToCheck l,
  (forall e, In e elementsToCheck -> (rank e <= k)%nat) ->
  getCandidatesIteratively_loop fuel elements includeContainer_ options elementsToCheck
    = Some l ->
  forall x, In x (flat_map leaves l) ->
  (rank x < k)%nat \/
  (In x elementsToCheck /\ (includeContainer_ = true \/ includes elements x = false)).
Proof.
  intros (Hchildren & Hassigned & Hshadow).
  induction fuel as [|fuel IH]; intros k elements ic queue l Hqueue;
    cbn [getCandidatesIteratively_loop]; [discriminate|].
  destruct queue as [|element rest]; [intros [= <-] x []|].
  assert (He : (rank element <= k)%nat) by (apply Hqueue; now left).
  assert (Hrest : forall e, In e rest -> (rank e <= k)%nat)
    by (intros e Hin; apply Hqueue; now right).
  assert (Hlater : forall later,
            getCandidatesIteratively_loop fuel elements ic options rest = Some later ->
            forall x, In x (flat_map leaves later) ->
            (rank x < k)%nat \/
            (In x (element :: rest) /\ (ic = true \/ includes elements x = false))).
  { intros later E x Hx. destruct (IH k _ _ _ _ Hrest E x Hx) as [H|[H1 H2]];
      [now left|right; split; [now right|exact H2]]. }
  assert (Hnested : forall content nested,
            (forall c, In c content -> (rank c < rank element)%nat) ->
            getCandidatesIteratively_loop fuel content true options content = Some nested ->
            forall x, In x (flat_map leaves nested) -> (rank x < k)%nat).
  { intros content nested Hcontent E x Hx.
    assert (Hbound : forall c, In c content -> (rank c <= rank element - 1)%nat).
    { intros c Hc. specialize (Hcontent c Hc). lia. }
    destruct (IH _ _ _ _ _ Hbound E x Hx) as [H|[H _]]; [lia|].
    specialize (Hcontent x H). lia. }
  destruct (isInert (Some element) false); [apply Hlater|].
  destruct (isSlot element) eqn:Eslot.
  - destruct (getCandidatesIteratively_loop fuel _ true options _) as [nested|] eqn:E1;
      [|discriminate].
    destruct (getCandidatesIteratively_loop fuel elements ic options rest) as [later|] eqn:E2;
      [|discriminate].
    intros [= <-] x. rewrite flat_map_app, leaves_scope_or_flat, in_app_iff.
    intros [Hx|Hx]; [left|now apply (Hlater later)].
    apply (Hnested _ _) with (2 := E1) (3 := Hx).
    intros c. destruct (assignedElements element) eqn:Ea;
      [apply Hchildren|rewrite <- Ea; apply Hassigned].
  - match goal with
    | |- context [if ?c then [Element ?e] else []] =>
        set (own := if c then [Element e] else [])
    end.
    assert (Hown : forall x, In x (flat_map leaves own) ->
              In x (element :: rest) /\ (ic = true \/ includes elements x = false)).
    { subst own. intros x.
      destruct (matches element candidateSelector); [|intros []].
      destruct (iter_filter options element); [|intros []].
      destruct ic; cbn [orb andb negb flat_map leaves app].
      - intros [<-|[]]. split; [now left|now left].
      - destruct (includes elements element) eqn:Ei; cbn [negb flat_map leaves app];
          [intros []|].
        intros [<-|[]]. split; [now left|now right]. }
    destruct (shadowRootTruthy (shadowRootOf options element) && _).
    + destruct (getCandidatesIteratively_loop fuel _ true options _) as [nested|] eqn:E1;
        [|discriminate].
      destruct (getCandidatesIteratively_loop fuel elements ic options rest)
        as [later|] eqn:E2; [|discriminate].
      intros [= <-] x. rewrite !flat_map_app, leaves_scope_or_flat, !in_app_iff.
      intros [Hx|[Hx|Hx]]; [right; now apply Hown|left|now apply (Hlater later)].
      apply (Hnested _ _) with (2 := E1) (3 := Hx).
      intros c. destruct (shadowRootOf options element) as [r| |] eqn:Er;
        [now apply Hshadow|apply Hchildren|apply Hchildren].
    + destruct (getCandidatesIteratively_loop fuel elements ic options
                  (children element ++ rest)) as [later|] eqn:E2; [|discriminate].
      intros [= <-] x. rewrite flat_map_app, in_app_iff.
      intros [Hx|Hx]; [right; now apply Hown|].
      assert (Hbound : forall e, In e (children element ++ rest) -> (rank e <= k)%nat).
      { intros e Hin. apply in_app_or in Hin as [Hin|Hin]; [|now apply Hrest].
        specialize (Hchildren _ _ Hin). lia. }
      destruct (IH k _ _ _ _ Hbound E2 x Hx) as [H|[H1 H2]]; [now left|].
      apply in_app_or in H1 as [H1|H1].
      * left. specialize (Hchildren _ _ H1). lia.
      * right. split; [now right|exact H2].
Qed.

(** X16.  Unless [includeContainer] is set, the container is no result of
    [tabbable] or [focusable]: the flat collector queries its descendants,
    and in a ranked DOM the iterative collector never comes back to it. *)
Theorem container_not_returned (rank : Node -> nat) (fuel : nat) (el : Node)
    (options : Options) (l : list Node) :
  Ranked (tabbableOptions options) rank ->
  includeContainer options = false ->
  tabbable fuel el options = Some l \/ focusable fuel el options = Some l ->
  ~ In el l.
Proof.
  intros Hranked Hcontainer Hl Hel.
  assert (Hranked' : Ranked (focusableOptions options) rank) by exact Hranked.
  assert (Hiter : forall iterativeOptions candidates,
            Ranked iterativeOptions rank ->
            getCandidatesIteratively fuel [el] false iterativeOptions = Some candidates ->
            ~ In el (flat_map leaves candidates)).
  { intros iopts candidates Hr E Hin.
    assert (Hbound : forall e, In e [el] -> (rank e <= rank el)%nat)
      by (intros e [<-|[]]; lia).
    destruct (@getCandidatesIteratively_loop_rank iopts rank fuel Hr (rank el) [el] false
                [el] candidates Hbound E el Hin)
      as [H|[_ [H|H]]]; [lia|discriminate|].
    cbn in H. unfold same_node in H. now rewrite Nat.eqb_refl in H. }
  assert (Hflat : forall filter_, ~ In el (getCandidates el false filter_)).
  { intros filter_ Hin. apply getCandidates_In_iff in Hin as (_ & [Hin|[Hin _]] & _);
      [now apply container_not_descendant in Hin|discriminate]. }
  unfold tabbable, focusable in Hl. rewrite Hcontainer in Hl.
  destruct (getShadowRootTruthy (getShadowRoot options)).
  - destruct Hl as [Hl|Hl].
    + destruct (getCandidatesIteratively _ _ _ (tabbableOptions options)) as [c|] eqn:E;
        [|discriminate].
      injection Hl as <-. apply (proj1 (sortByOrder_In _ _)) in Hel.
      now apply (Hiter _ _ Hranked E).
    + destruct (getCandidatesIteratively _ _ _ (focusableOptions options)) as [c|] eqn:E;
        [|discriminate].
      injection Hl as <-. apply flatElements_leaves in Hel.
      now apply (Hiter _ _ Hranked' E).
  - destruct Hl as [Hl|Hl]; injection Hl as <-.
    + apply (proj1 (sortByOrder_elements _ _)) in Hel. now apply Hflat in Hel.
    + now apply Hflat in Hel.
Qed.

End FurtherCollector.

(** X16 on the div of [shadowDom]. *)
Lemma container_not_returned_witness :
  tabbable (dom := shadowDom) 10 1 withShadow = Some [6; 4]%nat /\
  ~ In 1%nat [6; 4]%nat.
Proof.
  split; [vm_compute; reflexivity|].
  apply (@container_not_returned shadowDom (height (DOM := shadowDom)) 10%nat 1%nat
           withShadow [6; 4]%nat).
  - exact shadowDom_Ranked.
  - reflexivity.
  - left. vm_compute. reflexivity.
Defined.

Section FurtherLightDom.

Context {dom : DOM}.

(** ** Shadow support on a page without shadow DOM *)

Lemma visitedFrom_fuel (f1 : nat) : forall f2 n,
  (height n < f1)%nat -> (height n < f2)%nat -> visitedFrom f1 n = visitedFrom f2 n.
Proof.
  induction f1 as [|f1 IH]; intros [|f2] n H1 H2; try lia. cbn [visitedFrom].
  destruct (inert n); [reflexivity|]. f_equal.
  pose proof (height_children n) as Hc.
  induction (children n) as [|c l IHl]; [reflexivity|].
  cbn [flat_map]. rewrite IHl by (intros c' Hc'; apply Hc; now right).
  f_equal. specialize (Hc c (or_introl eq_refl)). apply IH; lia.
Qed.

Lemma visited_unfold (n : Node) :
  visited n = if inert n then [] else n :: flat_map visited (children n).
Proof.
  unfold visited at 1. cbn [visitedFrom]. destruct (inert n); [reflexivity|]. f_equal.
  pose proof (height_children n) as Hc.
  induction (children n) as [|c l IHl]; [reflexivity|].
  cbn [flat_map]. rewrite IHl by (intros c' Hc'; apply Hc; now right).
  f_equal. specialize (Hc c (or_introl eq_refl)). apply visitedFrom_fuel; lia.
Qed.

Lemma filter_flat_map (A B : Type) (f : B -> bool) (g : A -> list B) (l : list A) :
  filter f (flat_map g l) = flat_map (fun a => filter f (g a)) l.
Proof.
  induction l as [|a l IH]; [reflexivity|]. cbn [flat_map]. now rewrite filter_app, IH.
Qed.

Lemma filter_none (A : Type) (f : A -> bool) (l : list A) :
  (forall x, In x l -> f x = false) -> filter f l = [].
Proof.
  induction l as [|a l IH]; intros H; [reflexivity|]. cbn [filter].
  rewrite (H a (or_introl eq_refl)). apply IH. intros x Hx. apply H. now right.
Qed.

(** Without slots and shadow roots the loop is a walk of the tree in
    document order that leaves out the subtrees of inert elements. *)
Lemma getCandidatesIteratively_loop_light (options : IterativeOptions) (fuel : nat) :
  (forall n, isSlot n = false) ->
  (forall e, shadowRootOf options e = SR_falsy) ->
  forall elements includeContainer_ elementsToCheck l,
  getCandidatesIteratively_loop fuel elements includeContainer_ options elementsToCheck
    = Some l ->
  l = map Element
        (filter (fun x => matches x candidateSelector && iter_filter options x &&
                          (includeContainer_ || negb (includes elements x)))
                (flat_map visited elementsToCheck)).
Proof.
  intros Hslot Hshadow.
  induction fuel as [|fuel IH]; intros elements ic queue l;
    cbn [getCandidatesIteratively_loop]; [discriminate|].
  destruct queue as [|element rest]; [now intros [= <-]|].
  cbn [flat_map]. rewrite (visited_unfold element), isInert_self.
  destruct (inert element); [apply IH|].
  rewrite Hslot, Hshadow. cbn [shadowRootTruthy andb].
  destruct (getCandidatesIteratively_loop fuel elements ic options
              (children element ++ rest)) as [later|] eqn:E2; [|discriminate].
  intros [= <-]. apply IH in E2. rewrite flat_map_app in E2. rewrite E2.
  cbn [app filter]. now destruct (_ && _ && _).
Qed.

Lemma isInert_inherited (n a : Node) :
  In a (ancestors n) -> isInert (Some a) true = true -> isInert (Some n) true = true.
Proof.
  rewrite !isInert_lookUp. intros Ha H. apply orb_true_iff. right. apply existsb_exists.
  apply orb_true_iff in H as [H|H]; [now exists a|].
  apply existsb_exists in H as (b & Hb & H). exists b. split; [|exact H].
  apply (@ancestors_trans _ (S (depth n)) n a b); auto.
Qed.

Lemma descendants_ancestors :
  (forall n c, In c (children n) -> parentNode c = Some n) ->
  forall fuel n x, In x (descendantsFrom fuel n) -> In n (ancestors x).
Proof.
  intros Hparent. induction fuel as [|fuel IH]; intros n x; cbn [descendantsFrom];
    [intros []|].
  rewrite in_flat_map. intros (c & Hc & Hx). apply Hparent in Hc.
  assert (Hn : In n (ancestors c)) by (rewrite ancestors_unfold, Hc; now left).
  destruct Hx as [<-|Hx]; [exact Hn|].
  apply (@ancestors_trans _ (S (depth x)) x c n); [lia|now apply IH|exact Hn].
Qed.

Lemma inert_subtree_no_candidate (n x : Node) :
  LightDom ->
  isInert (Some n) true = true -> In x (n :: descendants n) ->
  matches x candidateSelector = false.
Proof.
  intros (_ & _ & Hparent) Hn Hx. apply not_true_is_false. intros Hm.
  apply candidate_not_inert in Hm.
  destruct Hx as [<-|Hx]; [congruence|].
  apply (descendants_ancestors Hparent) in Hx.
  rewrite (@isInert_inherited x n Hx Hn) in Hm. discriminate.
Qed.

Lemma filter_visited (g : Node -> bool) (k : nat) :
  LightDom ->
  forall n, (height n < k)%nat ->
  filter (fun x => matches x candidateSelector && g x) (visited n) =
  filter (fun x => matches x candidateSelector && g x) (n :: descendants n).
Proof.
  intros HL. induction k as [|k IH]; intros n Hk; [lia|].
  rewrite visited_unfold. destruct (inert n) eqn:Einert.
  - symmetry. apply filter_none. intros x Hx.
    rewrite (@inert_subtree_no_candidate n x HL); [reflexivity| |exact Hx].
    now rewrite isInert_lookUp, Einert.
  - rewrite descendants_unfold. cbn [filter].
    assert (Hbelow : filter (fun x => matches x candidateSelector && g x)
                       (flat_map visited (children n)) =
                     filter (fun x => matches x candidateSelector && g x)
                       (flat_map (fun c => c :: descendants c) (children n))).
    { rewrite !filter_flat_map. pose proof (height_children n) as Hc.
      induction (children n) as [|c l IHl]; [reflexivity|].
      cbn [flat_map]. rewrite IHl by (intros c' Hc'; apply Hc; now right).
      f_equal. apply IH. specialize (Hc c (or_introl eq_refl)). lia. }
    now rewrite Hbelow.
Qed.

Lemma getCandidatesIteratively_light (options : IterativeOptions) (fuel : nat) (el : Node)
    (includeContainer_ : bool) (l : list Candidate) :
  LightDom ->
  (forall e, shadowRootOf options e = SR_falsy) ->
  getCandidatesIteratively fuel [el] includeContainer_ options = Some l ->
  l = map Element (getCandidates el includeContainer_ (iter_filter options)).
Proof.
  intros HL Hshadow Hl. pose proof HL as (_ & Hslot & _).
  apply (@getCandidatesIteratively_loop_light options fuel Hslot Hshadow) in Hl. subst l. f_equal.
  cbn [flat_map]. rewrite app_nil_r.
  rewrite (filter_ext _ (fun x => matches x candidateSelector &&
             (iter_filter options x && (includeContainer_ || negb (includes [el] x)))))
    by (intros x; now rewrite andb_assoc).
  rewrite (@filter_visited _ (S (height el)) HL el) by lia.
  unfold getCandidates. destruct (isInert (Some el) true) eqn:Einert.
  { apply filter_none. intros x Hx.
    now rewrite (@inert_subtree_no_candidate el x HL Einert Hx). }
  assert (Hbelow : filter (fun x => matches x candidateSelector &&
                     (iter_filter options x && (includeContainer_ || negb (includes [el] x))))
                     (descendants el) =
                   filter (iter_filter options) (querySelectorAll el candidateSelector)).
  { unfold querySelectorAll. rewrite filter_filter. apply filter_ext_in. intros x Hx.
    replace (includes [el] x) with false; [now rewrite orb_true_r, andb_true_r|].
    symmetry. apply not_true_is_false. intros Hin. apply includes_In in Hin.
    destruct Hin as [<-|[]]. now apply container_not_descendant in Hx. }
  cbn [filter]. rewrite Hbelow.
  replace (includes [el] el) with true
    by (cbn; unfold same_node; now rewrite Nat.eqb_refl).
  cbn [negb]. rewrite orb_false_r.
  destruct includeContainer_, (matches el candidateSelector); cbn [andb filter];
    try reflexivity.
  - now destruct (iter_filter options el).
  - now rewrite andb_false_r.
Qed.

Lemma getCandidates_ext (el : Node) (includeContainer_ : bool) (f g : Node -> bool) :
  (forall x, f x = g x) ->
  getCandidates el includeContainer_ f = getCandidates el includeContainer_ g.
Proof.
  intros Hfg. unfold getCandidates. destruct (isInert (Some el) true); [reflexivity|].
  now apply filter_ext.
Qed.

(** X17.  On a page without shadow DOM, switching shadow support on changes
    nothing: when [getShadowRoot] is [true], or a function that finds no
    shadow root, [tabbable] and [focusable] return what they return with
    shadow support off. *)
Theorem light_dom_agreement (fuel : nat) (el : Node) (options : Options) :
  LightDom ->
  getShadowRootTruthy (getShadowRoot options) = true ->
  (forall f e, getShadowRoot options = GSR_function f -> f e = SR_falsy) ->
  (forall l, tabbable fuel el options = Some l ->
             tabbable fuel el (withoutShadow options) = Some l) /\
  (forall l, focusable fuel el options = Some l ->
             focusable fuel el (withoutShadow options) = Some l).
Proof.
  intros HL Hon Hnone. pose proof HL as (Hroot & _ & _).
  assert (Hshadow : forall iterativeOptions,
            iter_getShadowRoot iterativeOptions = getShadowRoot options ->
            forall e, shadowRootOf iterativeOptions e = SR_falsy).
  { intros iopts Heq e. unfold shadowRootOf. rewrite Hroot, Heq.
    destruct (getShadowRoot options) as [| |f] eqn:Ef; try reflexivity.
    now apply Hnone. }
  assert (Hhidden : forall x, isHidden x options = isHidden x (withoutShadow options)).
  { intros x. unfold isHidden.
    replace (undisclosedShadow x options) with (@None Node); [reflexivity|].
    symmetry. unfold undisclosedShadow.
    destruct (getShadowRoot options) as [| |f] eqn:Ef; try reflexivity.
    apply undisclosedShadowWalk_none. intros p Hp.
    rewrite (Hnone f p eq_refl) in Hp. discriminate. }
  assert (Hfocusable : forall x, isNodeMatchingSelectorFocusable options x =
                                 isNodeMatchingSelectorFocusable (withoutShadow options) x).
  { intros x. unfold isNodeMatchingSelectorFocusable. now rewrite Hhidden. }
  assert (Htabbable : forall x, isNodeMatchingSelectorTabbable options x =
                                isNodeMatchingSelectorTabbable (withoutShadow options) x).
  { intros x. unfold isNodeMatchingSelectorTabbable. now rewrite Hfocusable. }
  unfold tabbable, focusable. rewrite Hon. cbn [withoutShadow getShadowRoot
    getShadowRootTruthy includeContainer]. split; intros l.
  - destruct (getCandidatesIteratively _ _ _ _) as [c|] eqn:E; [|discriminate].
    apply (@getCandidatesIteratively_light (tabbableOptions options) fuel el
             (includeContainer options) c HL
             (Hshadow (tabbableOptions options) eq_refl)) in E. subst c.
    cbn [option_map tabbableOptions iter_filter]. intros [= <-].
    now rewrite (@getCandidates_ext el (includeContainer options) _ _ Htabbable).
  - destruct (getCandidatesIteratively _ _ _ _) as [c|] eqn:E; [|discriminate].
    apply (@getCandidatesIteratively_light (focusableOptions options) fuel el
             (includeContainer options) c HL
             (Hshadow (focusableOptions options) eq_refl)) in E. subst c.
    cbn [option_map focusableOptions iter_filter]. intros [= <-].
    rewrite (@getCandidates_ext el (includeContainer options) _ _ Hfocusable). f_equal.
    generalize (getCandidates el (includeContainer options)
                  (isNodeMatchingSelectorFocusable (withoutShadow options))).
    intros l. induction l as [|x l IH]; [reflexivity|].
    cbn [map flatElements]. now rewrite <- IH.
Qed.

End FurtherLightDom.

(** [radiosDom] is a page without shadow DOM. *)
Lemma radiosDom_LightDom : LightDom (dom := radiosDom).
Proof.
  split; [|split].
  - intros n. do 5 (destruct n as [|n]; [reflexivity|]). now destruct n.
  - intros n. do 5 (destruct n as [|n]; [reflexivity|]). now destruct n.
  - intros n c Hc. change (In c (Table.children radiosTable n)) in Hc.
    change (Table.parentNode radiosTable c = Some n).
    unfold Table.children in Hc. apply filter_In in Hc as [_ Hc].
    apply andb_prop in Hc as [_ Hc].
    destruct (Table.parentNode radiosTable c) as [p|]; [|discriminate].
    cbn in Hc. apply Nat.eqb_eq in Hc. now subst p.
Qed.

(** X17 on [radiosDom]. *)
Lemma light_dom_agreement_witness :
  tabbable (dom := radiosDom) 10 1 (withoutShadow withShadow) = Some [3%nat] /\
  focusable (dom := radiosDom) 10 1 (withoutShadow withShadow) = Some [2; 3; 4]%nat.
Proof.
  destruct (@light_dom_agreement radiosDom 10%nat 1%nat withShadow radiosDom_LightDom)
    as (Htabbable & Hfocusable); [reflexivity|discriminate|].
  split; [apply Htabbable|apply Hfocusable]; vm_compute; reflexivity.
Defined.
